(** * Kibrom1/mcp: the to-do MCP server, its stdio client and the basic server

    A shallow embedding of
    - [src/my-first-mcp-server/mcp-server.py] (module [McpServer]),
    - [src/my-first-mcp-server/mcp-client.py] (module [SimpleMCPClient]),
    - [src/basic-mcp/server.py] (module [BasicServer]),
    together with the parts of Python the three files lean on: [str],
    insertion-ordered [dict], [set], [str.encode]/[bytes.decode],
    [str.strip] and the [json] module's [dumps] and [loads].

    What the program takes from its environment is an argument of the
    model: the string [str(uuid4())] and the timestamp that [add_todo]
    draws, and the line that [readline()] hands to [send_message].
    Numbers are Python's unbounded integers; floats are left out, and
    so are the limits of the interpreter (recursion depth, the length
    of an integer's decimal form, memory). *)

From Stdlib Require Import NArith ZArith List String Ascii Bool Lia.
From Stdlib.Strings Require Byte.
From Stdlib Require DecimalFacts DecimalPos DecimalZ.
From stdpp Require Import gmap.
Import ListNotations.

Local Open Scope N_scope.

(* ================================================================= *)
(** * Part I: definitions *)
(* ================================================================= *)

(** ** Python strings

    A Python [str] is a sequence of code points; [lit] reads an ASCII
    literal of the source. *)

Abbreviation str := (list N).

Definition lit (s : string) : str :=
  List.map N_of_ascii (list_ascii_of_string s).
Arguments lit : simpl never.

Fixpoint str_eqb (a b : str) : bool :=
  match a, b with
  | [], [] => true
  | x :: a', y :: b' => N.eqb x y && str_eqb a' b'
  | _, _ => false
  end.

(** [s.startswith(w)], with the text after [w]. *)
Fixpoint starts_with (w s : str) : option str :=
  match w, s with
  | [], _ => Some s
  | c :: w', c' :: s' => if c =? c' then starts_with w' s' else None
  | _ :: _, [] => None
  end.

(** ** Python values that cross the protocol boundary

    [None], [bool], [int], [str], [list] and [dict] with [str] keys. A
    [dict] keeps its items in insertion order. Floats are outside the
    model. *)

#[warnings="-register-all"] Inductive value : Type :=
| VNone
| VBool (b : bool)
| VInt (z : Z)
| VStr (s : str)
| VList (l : list value)
| VDict (d : list (str * value)).

(** ** Insertion-ordered dictionaries with [str] keys *)

Section Dict.
Context {V : Type}.

Abbreviation dict := (list (str * V)).

(** [d.get(k)] *)
Fixpoint dict_get (k : str) (d : dict) : option V :=
  match d with
  | [] => None
  | (k', v) :: d' => if str_eqb k k' then Some v else dict_get k d'
  end.

(** [k in d] *)
Definition dict_contains (k : str) (d : dict) : bool :=
  match dict_get k d with Some _ => true | None => false end.

(** [d[k] = v]: an existing key keeps its position, a new one goes
    last. *)
Fixpoint dict_setitem (k : str) (v : V) (d : dict) : dict :=
  match d with
  | [] => [(k, v)]
  | (k', v') :: d' =>
      if str_eqb k k' then (k', v) :: d' else (k', v') :: dict_setitem k v d'
  end.

(** [del d[k]]; [None] stands for [KeyError]. *)
Fixpoint dict_delitem (k : str) (d : dict) : option dict :=
  match d with
  | [] => None
  | (k', v') :: d' =>
      if str_eqb k k' then Some d'
      else match dict_delitem k d' with
           | Some r => Some ((k', v') :: r)
           | None => None
           end
  end.

(** [dict(pairs)] *)
Definition dict_of_pairs (pairs : dict) : dict :=
  fold_left (fun d kv => dict_setitem (fst kv) (snd kv) d) pairs [].

Definition dict_keys (d : dict) : list str := List.map fst d.
End Dict.

(** ** Exceptions and results *)

Inductive exn : Type :=
| KeyError (k : str)
| TypeError
| AttributeError
| UnicodeEncodeError
| UnicodeDecodeError
| JSONDecodeError
  (** the scanner's fuel ran out; [Json.loads] always gives enough *)
| RecursionError
| Exception (msg : str)
  (** [Exception(f"Server error: {payload}")] *)
| ServerError (payload : value).

(** [Unmodelled]: the run met a float literal. *)
Inductive Res (A : Type) : Type :=
| Return (a : A)
| Raise (e : exn)
| Unmodelled.
Arguments Return {A} a.
Arguments Raise {A} e.
Arguments Unmodelled {A}.

(** Sequencing of results. *)
Definition res_bind {A B} (r : Res A) (f : A -> Res B) : Res B :=
  match r with
  | Return a => f a
  | Raise e => Raise e
  | Unmodelled => Unmodelled
  end.

(* ----------------------------------------------------------------- *)
(** ** Python's [json] module, as [mcp-client.py] calls it

    [json.dumps] and [json.loads] with their default arguments, after
    CPython's [json.encoder] and [json.decoder]. Numbers are the
    integers; the decoder leaves the model at a float literal. *)

Module Json.

(** Character codes. *)
Definition ch (a : ascii) : N := N_of_ascii a.
Definition QUOTE : N := 34.
Definition BACKSLASH : N := 92.

(** *** Encoder *)

(** One digit of [format(n, "x")]. *)
Definition hex_digit (n : N) : N :=
  if n <? 10 then ch "0" + n else ch "a" + (n - 10).

(** ['\\u{0:04x}'.format(n)], for [n < 0x10000]. *)
Definition u_escape (n : N) : str :=
  [ BACKSLASH; ch "u";
    hex_digit (N.shiftr n 12 mod 16); hex_digit (N.shiftr n 8 mod 16);
    hex_digit (N.shiftr n 4 mod 16); hex_digit (n mod 16) ].

(** The replacement of one character in
    [py_encode_basestring_ascii]: [ESCAPE_DCT], then the characters
    from space to tilde as they are, then [\uXXXX], with a surrogate
    pair above the basic plane. *)
Definition escape_char (c : N) : str :=
  if c =? BACKSLASH then [BACKSLASH; BACKSLASH]
  else if c =? QUOTE then [BACKSLASH; QUOTE]
  else if c =? 8 then [BACKSLASH; ch "b"]
  else if c =? 12 then [BACKSLASH; ch "f"]
  else if c =? 10 then [BACKSLASH; ch "n"]
  else if c =? 13 then [BACKSLASH; ch "r"]
  else if c =? 9 then [BACKSLASH; ch "t"]
  else if (32 <=? c) && (c <=? 126) then [c]
  else if c <? 0x10000 then u_escape c
  else
    let n := c - 0x10000 in
    let s1 := N.lor 0xd800 (N.land (N.shiftr n 10) 0x3ff) in
    let s2 := N.lor 0xdc00 (N.land n 0x3ff) in
    u_escape s1 ++ u_escape s2.

Definition encode_basestring_ascii (s : str) : str :=
  QUOTE :: flat_map escape_char s ++ [QUOTE].

(** [int.__repr__]: the decimal digits, most significant first. *)
Fixpoint uint_str (u : Decimal.uint) : str :=
  match u with
  | Decimal.Nil => []
  | Decimal.D0 u => ch "0" :: uint_str u
  | Decimal.D1 u => ch "1" :: uint_str u
  | Decimal.D2 u => ch "2" :: uint_str u
  | Decimal.D3 u => ch "3" :: uint_str u
  | Decimal.D4 u => ch "4" :: uint_str u
  | Decimal.D5 u => ch "5" :: uint_str u
  | Decimal.D6 u => ch "6" :: uint_str u
  | Decimal.D7 u => ch "7" :: uint_str u
  | Decimal.D8 u => ch "8" :: uint_str u
  | Decimal.D9 u => ch "9" :: uint_str u
  end.

Definition int_repr (z : Z) : str :=
  match Z.to_int z with
  | Decimal.Pos u => uint_str u
  | Decimal.Neg u => ch "-" :: uint_str u
  end.

(** [sep.join(parts)] *)
Fixpoint join (sep : str) (parts : list str) : str :=
  match parts with
  | [] => []
  | [p] => p
  | p :: ps => p ++ sep ++ join sep ps
  end.

(** [json.dumps(o)]: [ensure_ascii=True], separators [", "] and
    [": "], no indentation, keys in the order of the dictionary. *)
Fixpoint dumps (o : value) : str :=
  match o with
  | VNone => lit "null"
  | VBool true => lit "true"
  | VBool false => lit "false"
  | VInt z => int_repr z
  | VStr s => encode_basestring_ascii s
  | VList l => ch "[" :: join (lit ", ") (List.map dumps l) ++ [ch "]"]
  | VDict d =>
      ch "{" ::
      join (lit ", ")
        (List.map (fun kv => encode_basestring_ascii (fst kv) ++ lit ": " ++
                             dumps (snd kv)) d)
      ++ [ch "}"]
  end.

(** *** Decoder *)

(** [WHITESPACE = [ \t\n\r]*] *)
Definition is_ws (c : N) : bool :=
  (c =? 32) || (c =? 9) || (c =? 10) || (c =? 13).

Fixpoint skip_ws (s : str) : str :=
  match s with
  | c :: s' => if is_ws c then skip_ws s' else s
  | [] => []
  end.

Definition is_digit (c : N) : bool := (ch "0" <=? c) && (c <=? ch "9").

(** [int(h, 16)] of one hexadecimal digit. *)
Definition hex_value (c : N) : option N :=
  if is_digit c then Some (c - ch "0")
  else if (ch "a" <=? c) && (c <=? ch "f") then Some (c - ch "a" + 10)
  else if (ch "A" <=? c) && (c <=? ch "F") then Some (c - ch "A" + 10)
  else None.

(** [_decode_uXXXX]: the four characters after [\u]; [None] when they
    are not four hexadecimal digits. *)
Definition decode_uXXXX (s : str) : option (N * str) :=
  match s with
  | h1 :: h2 :: h3 :: h4 :: rest =>
      match hex_value h1, hex_value h2, hex_value h3, hex_value h4 with
      | Some a, Some b, Some c, Some d =>
          Some (N.shiftl a 12 + N.shiftl b 8 + N.shiftl c 4 + d, rest)
      | _, _, _, _ => None
      end
  | _ => None
  end.

(** [BACKSLASH], the table of the one-character escapes. *)
Definition unescape (esc : N) : option N :=
  if esc =? QUOTE then Some QUOTE
  else if esc =? BACKSLASH then Some BACKSLASH
  else if esc =? ch "/" then Some (ch "/")
  else if esc =? ch "b" then Some 8
  else if esc =? ch "f" then Some 12
  else if esc =? ch "n" then Some 10
  else if esc =? ch "r" then Some 13
  else if esc =? ch "t" then Some 9
  else None.

(** One turn of the loop of [scanstring] (strict mode), at [s]:
    [None] at the closing quote, else the character read; with the
    text that follows. *)
Definition scan_char (s : str) : Res (option N * str) :=
  match s with
  | [] => Raise JSONDecodeError (* unterminated string *)
  | c :: s1 =>
      if c =? QUOTE then Return (None, s1)
      else if c <? 32 then Raise JSONDecodeError (* control character *)
      else if negb (c =? BACKSLASH) then Return (Some c, s1)
      else
        match s1 with
        | [] => Raise JSONDecodeError
        | esc :: s2 =>
            if negb (esc =? ch "u") then
              match unescape esc with
              | Some c' => Return (Some c', s2)
              | None => Raise JSONDecodeError
              end
            else
              match decode_uXXXX s2 with
              | None => Raise JSONDecodeError
              | Some (uni, s3) =>
                  if (0xd800 <=? uni) && (uni <=? 0xdbff) then
                    match s3 with
                    | b :: u :: s4 =>
                        if (b =? BACKSLASH) && (u =? ch "u") then
                          match decode_uXXXX s4 with
                          | None => Raise JSONDecodeError
                          | Some (uni2, s5) =>
                              if (0xdc00 <=? uni2) && (uni2 <=? 0xdfff) then
                                Return
                                  (Some (0x10000 +
                                         N.lor (N.shiftl (uni - 0xd800) 10)
                                               (uni2 - 0xdc00)), s5)
                              else Return (Some uni, s3)
                          end
                        else Return (Some uni, s3)
                    | _ => Return (Some uni, s3)
                    end
                  else Return (Some uni, s3)
              end
        end
  end.

(** [scanstring], from just after the opening quote. *)
Fixpoint scanstring (fuel : nat) (s : str) : Res (str * str) :=
  match fuel with
  | O => Raise RecursionError
  | S fuel' =>
      res_bind (scan_char s) (fun '(oc, rest) =>
        match oc with
        | None => Return ([], rest)
        | Some c =>
            res_bind (scanstring fuel' rest) (fun '(chunk, rest') =>
              Return (c :: chunk, rest'))
        end)
  end.

(** The digits at the head of [s], and what follows them. *)
Fixpoint span_digits (s : str) : str * str :=
  match s with
  | c :: s' =>
      if is_digit c then let '(ds, rest) := span_digits s' in (c :: ds, rest)
      else ([], s)
  | [] => ([], [])
  end.

Fixpoint uint_of_digits (ds : str) : Decimal.uint :=
  match ds with
  | [] => Decimal.Nil
  | c :: ds' =>
      let u := uint_of_digits ds' in
      match c - ch "0" with
      | 0 => Decimal.D0 u | 1 => Decimal.D1 u | 2 => Decimal.D2 u
      | 3 => Decimal.D3 u | 4 => Decimal.D4 u | 5 => Decimal.D5 u
      | 6 => Decimal.D6 u | 7 => Decimal.D7 u | 8 => Decimal.D8 u
      | _ => Decimal.D9 u
      end
  end.

(** Whether a fraction [\.[0-9]+] or an exponent [[eE][-+]?[0-9]+]
    follows the integer part. *)
Definition float_follows (s : str) : bool :=
  match s with
  | c :: d :: rest =>
      if c =? ch "." then is_digit d
      else if (c =? ch "e") || (c =? ch "E") then
        if (d =? ch "-") || (d =? ch "+") then
          match rest with d' :: _ => is_digit d' | [] => false end
        else is_digit d
      else false
  | _ => false
  end.

(** [NUMBER_RE] at [s]: an optional minus sign, then a zero or a
    nonzero digit with the digits after it, then an optional fraction
    and an optional exponent; [None] when it does not match. *)
Definition match_number (s : str) : option (Res (value * str)) :=
  let '(neg, s1) :=
    match s with
    | c :: s' => if c =? ch "-" then (true, s') else (false, s)
    | [] => (false, s)
    end in
  match s1 with
  | c :: s2 =>
      if is_digit c then
        let '(ds, rest) :=
          if c =? ch "0" then ([c], s2)
          else let '(ds, rest) := span_digits s2 in (c :: ds, rest) in
        if float_follows rest then Some Unmodelled
        else
          let u := uint_of_digits ds in
          Some (Return (VInt (Z.of_int (if (neg : bool) then Decimal.Neg u
                                        else Decimal.Pos u)), rest))
      else None
  | [] => None
  end.

Section Containers.
(** [JSONArray] and [JSONObject] are handed [scan_once]. *)
Variable scan_once : str -> Res (value * str).

(** The loop of [JSONArray], at a value. *)
Fixpoint array_loop (fuel : nat) (s : str) : Res (list value * str) :=
  match fuel with
  | O => Raise RecursionError
  | S fuel' =>
      res_bind (scan_once s) (fun '(v, s1) =>
        match skip_ws s1 with
        | c :: s2 =>
            if c =? ch "]" then Return ([v], s2)
            else if c =? ch "," then
              res_bind (array_loop fuel' (skip_ws s2)) (fun '(vs, rest) =>
                Return (v :: vs, rest))
            else Raise JSONDecodeError (* expecting ',' *)
        | [] => Raise JSONDecodeError
        end)
  end.

(** [JSONArray], from just after the bracket. *)
Definition JSONArray (fuel : nat) (s : str) : Res (value * str) :=
  match skip_ws s with
  | c :: s1 =>
      if c =? ch "]" then Return (VList [], s1)
      else res_bind (array_loop fuel (c :: s1)) (fun '(vs, rest) =>
             Return (VList vs, rest))
  | [] => Raise JSONDecodeError
  end.

(** The loop of [JSONObject], from just after the opening quote of a
    key. *)
Fixpoint object_loop (fuel : nat) (s : str)
  : Res (list (str * value) * str) :=
  match fuel with
  | O => Raise RecursionError
  | S fuel' =>
      res_bind (scanstring (S (length s)) s) (fun '(key, s1) =>
        match skip_ws s1 with
        | c :: s2 =>
            if c =? ch ":" then
              res_bind (scan_once (skip_ws s2)) (fun '(v, s3) =>
                match skip_ws s3 with
                | c' :: s4 =>
                    if c' =? ch "}" then Return ([(key, v)], s4)
                    else if c' =? ch "," then
                      match skip_ws s4 with
                      | q :: s5 =>
                          if q =? QUOTE then
                            res_bind (object_loop fuel' s5)
                              (fun '(pairs, rest) =>
                                 Return ((key, v) :: pairs, rest))
                          else Raise JSONDecodeError (* expecting a name *)
                      | [] => Raise JSONDecodeError
                      end
                    else Raise JSONDecodeError (* expecting ',' *)
                | [] => Raise JSONDecodeError
                end)
            else Raise JSONDecodeError (* expecting ':' *)
        | [] => Raise JSONDecodeError
        end)
  end.

(** [JSONObject], from just after the brace; the pairs go through
    [dict(pairs)]. *)
Definition JSONObject (fuel : nat) (s : str) : Res (value * str) :=
  match skip_ws s with
  | c :: s1 =>
      if c =? ch "}" then Return (VDict [], s1)
      else if c =? QUOTE then
        res_bind (object_loop fuel s1) (fun '(pairs, rest) =>
          Return (VDict (dict_of_pairs pairs), rest))
      else Raise JSONDecodeError (* expecting a name *)
  | [] => Raise JSONDecodeError
  end.
End Containers.

(** [scan_once] of [py_make_scanner]. *)
Fixpoint scan_once (fuel : nat) (s : str) : Res (value * str) :=
  match fuel with
  | O => Raise RecursionError
  | S fuel' =>
      match s with
      | [] => Raise JSONDecodeError (* expecting value *)
      | nextchar :: s1 =>
          if nextchar =? QUOTE then
            res_bind (scanstring (S (length s1)) s1) (fun '(str, rest) =>
              Return (VStr str, rest))
          else if nextchar =? ch "{" then
            JSONObject (scan_once fuel') (S (length s1)) s1
          else if nextchar =? ch "[" then
            JSONArray (scan_once fuel') (S (length s1)) s1
          else
            match starts_with (lit "null") s, starts_with (lit "true") s,
                  starts_with (lit "false") s with
            | Some rest, _, _ => Return (VNone, rest)
            | _, Some rest, _ => Return (VBool true, rest)
            | _, _, Some rest => Return (VBool false, rest)
            | None, None, None =>
                match match_number s with
                | Some r => r
                | None =>
                    match starts_with (lit "NaN") s,
                          starts_with (lit "Infinity") s,
                          starts_with (lit "-Infinity") s with
                    | None, None, None => Raise JSONDecodeError
                    | _, _, _ => Unmodelled
                    end
                end
            end
      end
  end.

(** [json.loads(s)]: [JSONDecoder.decode], which skips whitespace,
    scans one value and accepts only whitespace after it. *)
Definition loads (s : str) : Res value :=
  res_bind (scan_once (S (length s)) (skip_ws s)) (fun '(obj, rest) =>
    match skip_ws rest with
    | [] => Return obj
    | _ :: _ => Raise JSONDecodeError (* extra data *)
    end).

(** *** Well-formed values

    Code points lie below [0x110000], no high surrogate stands right
    before a low one (the decoder reads such a pair of escapes as one
    character), and the keys of a dictionary are pairwise distinct. *)

Definition is_high (c : N) : bool := (0xd800 <=? c) && (c <=? 0xdbff).
Definition is_low (c : N) : bool := (0xdc00 <=? c) && (c <=? 0xdfff).

Fixpoint wf_str (s : str) : bool :=
  match s with
  | [] => true
  | c :: s' =>
      (c <? 0x110000)
      && match s' with
         | c' :: _ => negb (is_high c && is_low c')
         | [] => true
         end
      && wf_str s'
  end.

Fixpoint distinct (ks : list str) : bool :=
  match ks with
  | [] => true
  | k :: ks' => negb (existsb (str_eqb k) ks') && distinct ks'
  end.

Fixpoint wf_value (v : value) : bool :=
  match v with
  | VNone | VBool _ | VInt _ => true
  | VStr s => wf_str s
  | VList l => forallb wf_value l
  | VDict d =>
      distinct (List.map fst d)
      && forallb (fun kv => wf_str (fst kv) && wf_value (snd kv)) d
  end.

(** *** Vocabulary of the round trip *)

(** Whether [scan_char], having read a high surrogate, would go on
    into the escape that follows. *)
Definition low_escape_ahead (s : str) : bool :=
  match s with
  | b :: u :: s4 =>
      if (b =? BACKSLASH) && (u =? ch "u") then
        match decode_uXXXX s4 with
        | Some (uni2, _) => is_low uni2
        | None => true
        end
      else false
  | _ => false
  end.

(** What may follow the digits of an integer. *)
Definition value_end (rest : str) : bool :=
  match rest with
  | [] => true
  | c :: _ =>
      negb (is_digit c) && negb (c =? ch ".") && negb (c =? ch "e")
      && negb (c =? ch "E")
  end.

(** The characters a value can start with. *)
Definition value_start (c : N) : bool :=
  (c =? ch "n") || (c =? ch "t") || (c =? ch "f") || (c =? ch "-")
  || is_digit c || (c =? QUOTE) || (c =? ch "[") || (c =? ch "{").

(** The text of a dictionary item, after the opening quote of its
    key. *)
Definition item_body (kv : str * value) : str :=
  flat_map escape_char (fst kv) ++ QUOTE :: ch ":" :: 32 :: dumps (snd kv).

Definition item (kv : str * value) : str :=
  encode_basestring_ascii (fst kv) ++ lit ": " ++ dumps (snd kv).

(** What follows the first item of the dictionary [kv :: d]. *)
Definition items_tail (d : list (str * value)) (rest : str) : str :=
  match d with
  | [] => ch "}" :: rest
  | _ :: _ => ch "," :: 32 :: join (lit ", ") (List.map item d)
              ++ ch "}" :: rest
  end.

(** [scan] reads back the text of [v]. *)
Definition reads (scan : str -> Res (value * str)) (v : value) : Prop :=
  forall rest, value_end rest = true ->
               scan (dumps v ++ rest) = Return (v, rest).

(** The characters [dumps] writes. *)
Definition printable (c : N) : Prop := 32 <= c /\ c <= 126.

(** The run [r] of a scanner on [s] did not run out of fuel, and
    what it leaves is shorter than [s]. *)
Definition consumes {A} (r : Res (A * str)) (s : str) : Prop :=
  r <> Raise RecursionError
  /\ forall a rest, r = Return (a, rest) -> (length rest < length s)%nat.

End Json.

(* ----------------------------------------------------------------- *)
(** ** [str.encode()], [bytes.decode()] and [str.strip()] *)

Abbreviation bytes := (list Byte.byte).

Definition byte_of_N (n : N) : Byte.byte :=
  match Byte.of_N n with Some b => b | None => Byte.x00 end.

(** The UTF-8 form of one code point; [None] for a surrogate, which
    [encode] refuses. *)
Definition utf8_char (c : N) : option bytes :=
  if c <? 0x80 then Some [byte_of_N c]
  else if c <? 0x800 then
    Some [byte_of_N (0xC0 + N.shiftr c 6); byte_of_N (0x80 + c mod 64)]
  else if (0xD800 <=? c) && (c <=? 0xDFFF) then None
  else if c <? 0x10000 then
    Some [byte_of_N (0xE0 + N.shiftr c 12);
          byte_of_N (0x80 + N.shiftr c 6 mod 64);
          byte_of_N (0x80 + c mod 64)]
  else if c <? 0x110000 then
    Some [byte_of_N (0xF0 + N.shiftr c 18);
          byte_of_N (0x80 + N.shiftr c 12 mod 64);
          byte_of_N (0x80 + N.shiftr c 6 mod 64);
          byte_of_N (0x80 + c mod 64)]
  else None.

(** [s.encode()] *)
Fixpoint str_encode (s : str) : Res bytes :=
  match s with
  | [] => Return []
  | c :: s' =>
      match utf8_char c with
      | None => Raise UnicodeEncodeError
      | Some bs => res_bind (str_encode s') (fun r => Return (bs ++ r))
      end
  end.

Definition is_cont (n : N) : bool := (0x80 <=? n) && (n <=? 0xBF).

(** [b.decode()]: strict UTF-8. *)
Fixpoint bytes_decode (b : bytes) : Res str :=
  match b with
  | [] => Return []
  | b1 :: r1 =>
      let n1 := Byte.to_N b1 in
      if n1 <? 0x80 then
        res_bind (bytes_decode r1) (fun s => Return (n1 :: s))
      else if (0xC2 <=? n1) && (n1 <=? 0xDF) then
        match r1 with
        | b2 :: r2 =>
            let n2 := Byte.to_N b2 in
            if is_cont n2 then
              res_bind (bytes_decode r2) (fun s =>
                Return (N.shiftl (n1 - 0xC0) 6 + (n2 - 0x80) :: s))
            else Raise UnicodeDecodeError
        | _ => Raise UnicodeDecodeError
        end
      else if (0xE0 <=? n1) && (n1 <=? 0xEF) then
        match r1 with
        | b2 :: b3 :: r3 =>
            let n2 := Byte.to_N b2 in
            let n3 := Byte.to_N b3 in
            if is_cont n2 && is_cont n3
               && negb ((n1 =? 0xE0) && (n2 <? 0xA0))
               && negb ((n1 =? 0xED) && (0x9F <? n2)) then
              res_bind (bytes_decode r3) (fun s =>
                Return (N.shiftl (n1 - 0xE0) 12 + N.shiftl (n2 - 0x80) 6
                        + (n3 - 0x80) :: s))
            else Raise UnicodeDecodeError
        | _ => Raise UnicodeDecodeError
        end
      else if (0xF0 <=? n1) && (n1 <=? 0xF4) then
        match r1 with
        | b2 :: b3 :: b4 :: r4 =>
            let n2 := Byte.to_N b2 in
            let n3 := Byte.to_N b3 in
            let n4 := Byte.to_N b4 in
            if is_cont n2 && is_cont n3 && is_cont n4
               && negb ((n1 =? 0xF0) && (n2 <? 0x90))
               && negb ((n1 =? 0xF4) && (0x8F <? n2)) then
              res_bind (bytes_decode r4) (fun s =>
                Return (N.shiftl (n1 - 0xF0) 18 + N.shiftl (n2 - 0x80) 12
                        + N.shiftl (n3 - 0x80) 6 + (n4 - 0x80) :: s))
            else Raise UnicodeDecodeError
        | _ => Raise UnicodeDecodeError
        end
      else Raise UnicodeDecodeError
  end.

(** [c.isspace()] *)
Definition is_space (c : N) : bool :=
  ((9 <=? c) && (c <=? 13)) || ((28 <=? c) && (c <=? 32))
  || (c =? 0x85) || (c =? 0xA0) || (c =? 0x1680)
  || ((0x2000 <=? c) && (c <=? 0x200A))
  || (c =? 0x2028) || (c =? 0x2029) || (c =? 0x202F) || (c =? 0x205F)
  || (c =? 0x3000).

Fixpoint lstrip (s : str) : str :=
  match s with
  | c :: s' => if is_space c then lstrip s' else s
  | [] => []
  end.

Definition rstrip (s : str) : str := rev (lstrip (rev s)).

(** [s.strip()] *)
Definition strip (s : str) : str := rstrip (lstrip s).

(* ----------------------------------------------------------------- *)
(** ** [mcp-client.py]: [SimpleMCPClient] *)

Module SimpleMCPClient.

(** The session: the id counter, and the bytes written so far to the
    standard input of the server process. *)
Record Client : Type := mkClient {
  message_id : Z;
  stdin : bytes
}.

Definition __init__ : Client := {| message_id := 0; stdin := [] |}.

Definition M (A : Type) : Type := Client -> Res A * Client.

Definition ret {A} (a : A) : M A := fun c => (Return a, c).
Definition lift {A} (r : Res A) : M A := fun c => (r, c).
Definition raise {A} (e : exn) : M A := lift (Raise e).
Definition bind {A B} (m : M A) (f : A -> M B) : M B :=
  fun c =>
    match m c with
    | (Return a, c') => f a c'
    | (Raise e, c') => (Raise e, c')
    | (Unmodelled, c') => (Unmodelled, c')
    end.

Declare Scope client_scope.
Delimit Scope client_scope with client.
Notation "x <- m ;; k" := (bind m (fun x => k))
  (at level 100, m at next level, right associativity) : client_scope.
Notation "m ;; k" := (bind m (fun _ => k))
  (at level 100, right associativity) : client_scope.
Local Open Scope client_scope.

Definition _get_next_id : M Z :=
  fun c =>
    let c' := {| message_id := message_id c + 1; stdin := stdin c |} in
    (Return (message_id c'), c').

(** [self.process.stdin.write(data)] *)
Definition stdin_write (data : bytes) : M unit :=
  fun c => (Return tt, {| message_id := message_id c;
                          stdin := stdin c ++ data |}).

(** Truth value of an object. *)
Definition truthy (v : value) : bool :=
  match v with
  | VNone => false
  | VBool b => b
  | VInt z => negb (Z.eqb z 0)
  | VStr s => match s with [] => false | _ => true end
  | VList l => match l with [] => false | _ => true end
  | VDict d => match d with [] => false | _ => true end
  end.

(** [a or b] *)
Definition or_ (a b : value) : value := if truthy a then a else b.

(** The request of [send_message]. *)
Definition message (id : Z) (method : str) (params : value) : value :=
  VDict (dict_of_pairs
    [ (lit "jsonrpc", VStr (lit "2.0"));
      (lit "id", VInt id);
      (lit "method", VStr method);
      (lit "params", or_ params (VDict [])) ]).

(** [(json.dumps(message) + "\n").encode()] *)
Definition encode_message (message : value) : Res bytes :=
  str_encode (Json.dumps message ++ [10]).

(** [json.loads(response_line.decode().strip())] *)
Definition decode_response (response_line : bytes) : Res value :=
  res_bind (bytes_decode response_line) (fun text => Json.loads (strip text)).

(** [sub in s] on strings. *)
Fixpoint str_contains (sub s : str) : bool :=
  match starts_with sub s with
  | Some _ => true
  | None => match s with [] => false | _ :: s' => str_contains sub s' end
  end.

(** ["error" in response] *)
Definition error_in (response : value) : Res bool :=
  match response with
  | VDict d => Return (dict_contains (lit "error") d)
  | VList l =>
      Return (existsb (fun x => match x with
                                | VStr s => str_eqb (lit "error") s
                                | _ => false
                                end) l)
  | VStr s => Return (str_contains (lit "error") s)
  | _ => Raise TypeError
  end.

(** [response['error']] *)
Definition error_of (response : value) : Res value :=
  match response with
  | VDict d =>
      match dict_get (lit "error") d with
      | Some e => Return e
      | None => Raise (KeyError (lit "error"))
      end
  | _ => Raise TypeError
  end.

(** [response.get("result", {})] *)
Definition result_of (response : value) : Res value :=
  match response with
  | VDict d =>
      match dict_get (lit "result") d with
      | Some r => Return r
      | None => Return (VDict [])
      end
  | _ => Raise AttributeError
  end.

(** The end of [send_message], from the decoded response on. *)
Definition check_response (response : value) : Res value :=
  res_bind (error_in response) (fun has_error =>
    if (has_error : bool) then
      res_bind (error_of response) (fun payload => Raise (ServerError payload))
    else result_of response).

(** [send_message]. [response_line] is what the awaited
    [self.process.stdout.readline()] yields. *)
Definition send_message (method : str) (params : value)
    (response_line : bytes) : M value :=
  id <- _get_next_id ;;
  let message := message id method params in
  data <- lift (encode_message message) ;;
  stdin_write data ;;
  if match response_line with [] => true | _ => false end then
    raise (Exception (lit "No response from server"))
  else
    response <- lift (decode_response response_line) ;;
    lift (check_response response).

(** [message["id"]], when it is an [int]. *)
Definition request_id (message : value) : option Z :=
  match message with
  | VDict d =>
      match dict_get (lit "id") d with
      | Some (VInt z) => Some z
      | _ => None
      end
  | _ => None
  end.

(** One call of [send_message] with the line the server answers. *)
Record Call : Type := mkCall {
  call_method : str;
  call_params : value;
  call_response_line : bytes
}.

(** A sequence of calls on one session; a call that raises does not
    end the session. *)
Fixpoint run_calls (calls : list Call) (c : Client)
  : list (Res value) * Client :=
  match calls with
  | [] => ([], c)
  | k :: calls' =>
      let '(r, c') :=
        send_message (call_method k) (call_params k) (call_response_line k) c in
      let '(rs, c'') := run_calls calls' c' in
      (r :: rs, c'')
  end.

(** *** The methods built on [send_message] *)

(** What item access can raise besides the exceptions above:
    [IndexError], and [KeyError] on a key that is an integer. *)
Inductive item_exn : Type :=
| IndexError
| KeyErrorInt (i : Z).

(** How a method ends: as [send_message] does, or in an exception of
    item access. *)
Inductive Outcome (A : Type) : Type :=
| Done (r : Res A)
| RaiseItem (e : item_exn).
Arguments Done {A} r.
Arguments RaiseItem {A} e.

Definition outcome_bind {A B} (o : Outcome A) (f : A -> Outcome B)
  : Outcome B :=
  match o with
  | Done (Return a) => f a
  | Done (Raise e) => Done (Raise e)
  | Done Unmodelled => Done Unmodelled
  | RaiseItem e => RaiseItem e
  end.

(** [v[k]] for a string [k]: a lookup in a dictionary; a list and a
    string want integers, the other objects have no items. *)
Definition getitem_str (v : value) (k : str) : Outcome value :=
  match v with
  | VDict d =>
      match dict_get k d with
      | Some x => Done (Return x)
      | None => Done (Raise (KeyError k))
      end
  | _ => Done (Raise TypeError)
  end.

(** [v[0]]: the first element of a list, the first character of a
    string; a dictionary of the protocol has no key [0]. *)
Definition getitem_0 (v : value) : Outcome value :=
  match v with
  | VList (x :: _) => Done (Return x)
  | VList [] => RaiseItem IndexError
  | VStr (c :: _) => Done (Return (VStr [c]))
  | VStr [] => RaiseItem IndexError
  | VDict _ => RaiseItem (KeyErrorInt 0)
  | _ => Done (Raise TypeError)
  end.

(** [result[key][0]["text"]] *)
Definition first_text (key : str) (result : value) : Outcome value :=
  outcome_bind (getitem_str result key) (fun items =>
    outcome_bind (getitem_0 items) (fun item =>
      getitem_str item (lit "text"))).

(** [result = await self.send_message(...)], then [return f(result)]. *)
Definition with_result (m : M value) (f : value -> Outcome value)
  : Client -> Outcome value * Client :=
  fun c =>
    match m c with
    | (Return result, c') => (f result, c')
    | (Raise e, c') => (Done (Raise e), c')
    | (Unmodelled, c') => (Done Unmodelled, c')
    end.

Definition initialize (response_line : bytes) : M value :=
  send_message (lit "initialize")
    (VDict (dict_of_pairs
       [ (lit "protocolVersion", VStr (lit "2024-11-05"));
         (lit "capabilities",
          VDict (dict_of_pairs
            [ (lit "roots",
               VDict (dict_of_pairs [(lit "listChanged", VBool true)]));
              (lit "sampling", VDict (dict_of_pairs [])) ]));
         (lit "clientInfo",
          VDict (dict_of_pairs
            [ (lit "name", VStr (lit "simple-todo-client"));
              (lit "version", VStr (lit "1.0.0")) ])) ]))
    response_line.

Definition add_todo (title : str) (response_line : bytes)
  : Client -> Outcome value * Client :=
  with_result
    (send_message (lit "tools/call")
       (VDict (dict_of_pairs
          [ (lit "name", VStr (lit "add_todo"));
            (lit "arguments",
             VDict (dict_of_pairs [(lit "title", VStr title)])) ]))
       response_line)
    (first_text (lit "content")).

Definition complete_todo (todo_id : str) (response_line : bytes)
  : Client -> Outcome value * Client :=
  with_result
    (send_message (lit "tools/call")
       (VDict (dict_of_pairs
          [ (lit "name", VStr (lit "complete_todo"));
            (lit "arguments",
             VDict (dict_of_pairs [(lit "todo_id", VStr todo_id)])) ]))
       response_line)
    (first_text (lit "content")).

Definition delete_todo (todo_id : str) (response_line : bytes)
  : Client -> Outcome value * Client :=
  with_result
    (send_message (lit "tools/call")
       (VDict (dict_of_pairs
          [ (lit "name", VStr (lit "delete_todo"));
            (lit "arguments",
             VDict (dict_of_pairs [(lit "todo_id", VStr todo_id)])) ]))
       response_line)
    (first_text (lit "content")).

Definition list_todos (response_line : bytes)
  : Client -> Outcome value * Client :=
  with_result
    (send_message (lit "resources/read")
       (VDict (dict_of_pairs [(lit "uri", VStr (lit "todos://all"))]))
       response_line)
    (first_text (lit "contents")).

Definition get_todo (todo_id : str) (response_line : bytes)
  : Client -> Outcome value * Client :=
  with_result
    (send_message (lit "resources/read")
       (VDict (dict_of_pairs
          [(lit "uri", VStr (lit "todo://" ++ todo_id))]))
       response_line)
    (first_text (lit "contents")).

Definition greet (name : str) (response_line : bytes)
  : Client -> Outcome value * Client :=
  with_result
    (send_message (lit "resources/read")
       (VDict (dict_of_pairs
          [(lit "uri", VStr (lit "greeting://" ++ name))]))
       response_line)
    (first_text (lit "contents")).

End SimpleMCPClient.

(* ----------------------------------------------------------------- *)
(** ** [mcp-server.py]: the to-do store and its handlers *)

Module McpServer.

(** The value stored under a todo id:
    [{"title": str, "completed": bool, "created_at": str}]. *)
Record Todo : Type := mkTodo {
  title : str;
  completed : bool;
  created_at : str
}.

(** The global [todos]. *)
Abbreviation Store := (list (str * Todo)).

(** Handlers run against the global store and may raise. *)
Definition M (A : Type) : Type := Store -> Res A * Store.

Definition ret {A} (a : A) : M A := fun s => (Return a, s).
Definition raise {A} (e : exn) : M A := fun s => (Raise e, s).
Definition bind {A B} (m : M A) (f : A -> M B) : M B :=
  fun s =>
    match m s with
    | (Return a, s') => f a s'
    | (Raise e, s') => (Raise e, s')
    | (Unmodelled, s') => (Unmodelled, s')
    end.

Declare Scope handler_scope.
Delimit Scope handler_scope with handler.
Notation "x <- m ;; k" := (bind m (fun x => k))
  (at level 100, m at next level, right associativity) : handler_scope.
Notation "m ;; k" := (bind m (fun _ => k))
  (at level 100, right associativity) : handler_scope.
Local Open Scope handler_scope.

(** [todos.get(k)] *)
Definition todos_get (k : str) : M (option Todo) :=
  fun s => (Return (dict_get k s), s).
(** [k in todos] *)
Definition todos_contains (k : str) : M bool :=
  fun s => (Return (dict_contains k s), s).
(** [todos[k]] *)
Definition todos_getitem (k : str) : M Todo :=
  fun s => match dict_get k s with
           | Some t => (Return t, s)
           | None => (Raise (KeyError k), s)
           end.
(** [todos[k] = t] *)
Definition todos_setitem (k : str) (t : Todo) : M unit :=
  fun s => (Return tt, dict_setitem k t s).
(** [del todos[k]] *)
Definition todos_delitem (k : str) : M unit :=
  fun s => match dict_delitem k s with
           | Some s' => (Return tt, s')
           | None => (Raise (KeyError k), s)
           end.
(** [todos.items()] *)
Definition todos_items : M (list (str * Todo)) :=
  fun s => (Return s, s).

(** [**info] *)
Definition info_items (info : Todo) : list (str * value) :=
  [ (lit "title", VStr (title info));
    (lit "completed", VBool (completed info));
    (lit "created_at", VStr (created_at info)) ].

(** [{"id": todo_id, **info}] *)
Definition todo_view (todo_id : str) (info : Todo) : value :=
  VDict (dict_of_pairs ((lit "id", VStr todo_id) :: info_items info)).

(** [add_todo]. [uuid] is what [str(uuid4())] yields at this call and
    [now] what [datetime.utcnow().isoformat()] yields. *)
Definition add_todo (uuid now : str) (title : str) : M str :=
  let todo_id := uuid in
  todos_setitem todo_id
    {| title := title; completed := false; created_at := now |} ;;
  ret (lit "Todo '" ++ title ++ lit "' added with ID " ++ todo_id).

(** [complete_todo]. A stored todo has its three keys, so [not todo]
    holds of [None] only. The assignment [todo["completed"] = True]
    writes through to the object held by [todos]. *)
Definition complete_todo (todo_id : str) : M str :=
  todo <- todos_get todo_id ;;
  match todo with
  | None => ret (lit "Todo not found.")
  | Some todo =>
      if completed todo then ret (lit "Todo already completed.")
      else
        todos_setitem todo_id
          {| title := title todo; completed := true;
             created_at := created_at todo |} ;;
        ret (lit "Todo '" ++ title todo ++ lit "' marked as completed.")
  end.

Definition delete_todo (todo_id : str) : M str :=
  present <- todos_contains todo_id ;;
  if (present : bool) then
    todo <- todos_getitem todo_id ;;
    let title := title todo in
    todos_delitem todo_id ;;
    ret (lit "Todo '" ++ title ++ lit "' deleted.")
  else ret (lit "Todo not found.").

Definition list_todos : M value :=
  items <- todos_items ;;
  ret (VList (List.map (fun '(todo_id, info) => todo_view todo_id info) items)).

Definition get_todo (todo_id : str) : M value :=
  todo <- todos_get todo_id ;;
  match todo with
  | None => ret (VDict [(lit "error", VStr (lit "Todo not found"))])
  | Some todo => ret (todo_view todo_id todo)
  end.

Definition greet (name : str) : M str :=
  ret (lit "Hello, " ++ name ++ lit "! Welcome to your todo manager.").



(** The operations the server exposes. *)
Inductive Op : Type :=
| OpAdd (uuid now title : str)
| OpComplete (todo_id : str)
| OpDelete (todo_id : str)
| OpList
| OpGet (todo_id : str)
| OpGreet (name : str).

(** The store an operation leaves behind. *)
Definition exec (op : Op) (s : Store) : Store :=
  match op with
  | OpAdd uuid now title => snd (add_todo uuid now title s)
  | OpComplete todo_id => snd (complete_todo todo_id s)
  | OpDelete todo_id => snd (delete_todo todo_id s)
  | OpList => snd (list_todos s)
  | OpGet todo_id => snd (get_todo todo_id s)
  | OpGreet name => snd (greet name s)
  end.

End McpServer.

(* ----------------------------------------------------------------- *)
(** ** [basic-mcp/server.py]: the [debug_error] prompt *)

Module BasicServer.

(** The set display [{a, b}]. *)
Definition set_display (a b : str) : gset str := {[ a; b ]}.

Definition debug_error (error : str) : list (gset str) :=
  [ set_display (lit "user") (lit "I'm seeing this error");
    set_display (lit "user") error;
    set_display (lit "assistant")
      (lit "I'll help debug that, what have you tried so far?") ].

End BasicServer.

(* ----------------------------------------------------------------- *)
(** ** Vocabulary of the further properties *)

(** The items of [d] without the item of [k], if there is one. *)
Fixpoint dict_without {V : Type} (k : str) (d : list (str * V))
  : list (str * V) :=
  match d with
  | [] => []
  | (k', v) :: d' =>
      if str_eqb k k' then d' else (k', v) :: dict_without k d'
  end.

(** The bytes that are ASCII whitespace for [str.strip]. *)
Definition space_byte (b : Byte.byte) : Prop :=
  is_space (Byte.to_N b) = true /\ Byte.to_N b < 128.

(* ================================================================= *)
(** * Part II: properties *)
(* ================================================================= *)

(** ** Strings and dictionaries *)

Lemma str_eqb_eq (a b : str) : str_eqb a b = true <-> a = b.
Proof.
  revert b; induction a as [|x a IH]; intros [|y b]; simpl; split;
    try congruence; try discriminate; auto.
  - intros H. apply andb_prop in H as [Hx Hab].
    apply N.eqb_eq in Hx. apply IH in Hab. congruence.
  - intros H. injection H as -> ->. rewrite N.eqb_refl. simpl. now apply IH.
Qed.

Lemma str_eqb_refl (a : str) : str_eqb a a = true.
Proof. now apply str_eqb_eq. Qed.

Lemma str_eqb_neq (a b : str) : str_eqb a b = false <-> a <> b.
Proof.
  split.
  - intros H E. apply str_eqb_eq in E. congruence.
  - intros H. destruct (str_eqb a b) eqn:E; [|reflexivity].
    apply str_eqb_eq in E. contradiction.
Qed.

Lemma str_eqb_sym (a b : str) : str_eqb a b = str_eqb b a.
Proof.
  destruct (str_eqb a b) eqn:E.
  - apply str_eqb_eq in E. subst. now rewrite str_eqb_refl.
  - apply str_eqb_neq in E. symmetry. apply str_eqb_neq. congruence.
Qed.

Section DictFacts.
Context {V : Type}.
Implicit Types (d : list (str * V)) (k : str) (v : V).

Lemma dict_get_None_keys k d :
  dict_get k d = None <-> ~ In k (dict_keys d).
Proof.
  induction d as [|[k' v'] d IH]; simpl.
  - tauto.
  - destruct (str_eqb k k') eqn:E.
    + apply str_eqb_eq in E. subst. split; [discriminate | tauto].
    + apply str_eqb_neq in E. rewrite IH. split; [intros H [?|?]; auto | tauto].
Qed.

Lemma dict_get_Some_In k v d : dict_get k d = Some v -> In (k, v) d.
Proof.
  induction d as [|[k' v'] d IH]; simpl; [discriminate|].
  destruct (str_eqb k k') eqn:E.
  - apply str_eqb_eq in E. subst. intros [= ->]. now left.
  - intros H. right. now apply IH.
Qed.


(** Assigning to a key that is not there appends. *)
Lemma dict_setitem_fresh k v d :
  dict_get k d = None -> dict_setitem k v d = d ++ [(k, v)].
Proof.
  induction d as [|[k' v'] d IH]; simpl; [reflexivity|].
  destruct (str_eqb k k'); [discriminate|].
  intros H. now rewrite IH.
Qed.

Lemma dict_setitem_keys_present k v d :
  dict_get k d <> None -> dict_keys (dict_setitem k v d) = dict_keys d.
Proof.
  induction d as [|[k' v'] d IH]; simpl; [congruence|].
  destruct (str_eqb k k'); simpl; [reflexivity|].
  intros H. now rewrite IH.
Qed.

Lemma dict_get_setitem_eq k v d : dict_get k (dict_setitem k v d) = Some v.
Proof.
  induction d as [|[k' v'] d IH]; simpl.
  - now rewrite str_eqb_refl.
  - destruct (str_eqb k k') eqn:E; simpl; rewrite E; auto.
Qed.

Lemma dict_get_setitem_ne k k' v d :
  k' <> k -> dict_get k' (dict_setitem k v d) = dict_get k' d.
Proof.
  intros Hne. induction d as [|[k0 v0] d IH]; simpl.
  - apply str_eqb_neq in Hne. now rewrite Hne.
  - destruct (str_eqb k k0) eqn:E; simpl.
    + apply str_eqb_eq in E. subst k0.
      apply str_eqb_neq in Hne. now rewrite Hne.
    + now rewrite IH.
Qed.

(** On a dictionary (keys pairwise distinct) [del d[k]] drops the
    item of [k] and nothing else. *)
Lemma dict_delitem_present k v d :
  dict_get k d = Some v ->
  List.NoDup (dict_keys d) ->
  dict_delitem k d = Some (List.filter (fun kv => negb (str_eqb k (fst kv))) d).
Proof.
  induction d as [|[k' v'] d IH]; simpl; [discriminate|].
  intros Hget Hnd. apply NoDup_cons_iff in Hnd as [Hnotin Hnd].
  destruct (str_eqb k k') eqn:E; simpl.
  - apply str_eqb_eq in E. subst k'. f_equal.
    symmetry. apply forallb_filter_id. apply forallb_forall.
    intros [k1 v1] Hin. simpl. apply negb_true_iff, str_eqb_neq.
    intros ->. apply Hnotin. unfold dict_keys.
    change k1 with (fst (k1, v1)). now apply in_map.
  - now rewrite (IH Hget Hnd).
Qed.

Lemma dict_get_filter_out k d :
  dict_get k (List.filter (fun kv => negb (str_eqb k (fst kv))) d) = None.
Proof.
  induction d as [|[k' v'] d IH]; simpl; [reflexivity|].
  destruct (str_eqb k k') eqn:E; simpl; [assumption|].
  now rewrite E.
Qed.

Lemma dict_get_filter_other k k' d :
  k' <> k ->
  dict_get k' (List.filter (fun kv => negb (str_eqb k (fst kv))) d) = dict_get k' d.
Proof.
  intros Hne. induction d as [|[k0 v0] d IH]; simpl; [reflexivity|].
  destruct (str_eqb k k0) eqn:E; simpl.
  - apply str_eqb_eq in E. subst k0.
    apply str_eqb_neq in Hne. now rewrite Hne.
  - now rewrite IH.
Qed.

Lemma dict_get_delitem_other k k' d d' :
  dict_delitem k d = Some d' -> k' <> k -> dict_get k' d' = dict_get k' d.
Proof.
  intros Hd Hne. revert d' Hd.
  induction d as [|[k0 v0] d IH]; simpl; intros d' Hd; [discriminate|].
  destruct (str_eqb k k0) eqn:E.
  - injection Hd as <-. apply str_eqb_eq in E. subst k0.
    apply str_eqb_neq in Hne. now rewrite Hne.
  - destruct (dict_delitem k d) as [r|]; [|discriminate].
    injection Hd as <-. simpl. now rewrite (IH r eq_refl).
Qed.

Lemma dict_of_pairs_app (p q : list (str * V)) :
  dict_of_pairs (p ++ q) =
  fold_left (fun d kv => dict_setitem (fst kv) (snd kv) d) q (dict_of_pairs p).
Proof. unfold dict_of_pairs. apply fold_left_app. Qed.

(** [dict(pairs)] of pairs with pairwise distinct keys is the pairs. *)
Lemma dict_of_pairs_NoDup (p : list (str * V)) :
  List.NoDup (dict_keys p) -> dict_of_pairs p = p.
Proof.
  induction p as [|[k v] p IH] using rev_ind; [reflexivity|].
  unfold dict_keys. rewrite map_app. simpl. intros Hnd.
  apply NoDup_remove in Hnd as [Hnd Hnotin]. rewrite app_nil_r in Hnd, Hnotin.
  rewrite dict_of_pairs_app. simpl. rewrite (IH Hnd).
  apply dict_setitem_fresh. now apply dict_get_None_keys.
Qed.

End DictFacts.

(* ----------------------------------------------------------------- *)
(** ** The [json] codec *)

(** Replaces the character constants by their codes. *)
Ltac ch_values :=
  repeat match goal with
         | |- context [Json.ch ?a] =>
             let v := eval vm_compute in (Json.ch a) in
             change (Json.ch a) with v
         | H : context [Json.ch ?a] |- _ =>
             let v := eval vm_compute in (Json.ch a) in
             change (Json.ch a) with v in H
         end;
  unfold Json.QUOTE, Json.BACKSLASH in *.

Section CodecFacts.
Import Json.
Local Open Scope N_scope.

Lemma hex_value_digit n : n < 16 -> hex_value (hex_digit n) = Some n.
Proof.
  intros H. destruct n as [|p]; [reflexivity|].
  do 4 (destruct p as [p|p|]; try reflexivity); lia.
Qed.

Lemma nibbles n :
  n < 0x10000 ->
  N.shiftl (N.shiftr n 12 mod 16) 12 + N.shiftl (N.shiftr n 8 mod 16) 8
  + N.shiftl (N.shiftr n 4 mod 16) 4 + n mod 16 = n.
Proof.
  intros H. rewrite !N.shiftl_mul_pow2, !N.shiftr_div_pow2.
  change (2^12) with 4096. change (2^8) with 256. change (2^4) with 16.
  zify. Z.to_euclidean_division_equations. lia.
Qed.

(** The decoder reads back a [\uXXXX] escape. *)
Lemma decode_u_escape n rest :
  n < 0x10000 ->
  exists h, u_escape n ++ rest = BACKSLASH :: ch "u" :: h
            /\ decode_uXXXX h = Some (n, rest).
Proof.
  intros H. unfold u_escape. eexists. split; [reflexivity|].
  unfold decode_uXXXX.
  rewrite !hex_value_digit by (apply N.mod_lt; discriminate).
  now rewrite nibbles.
Qed.

Lemma land_shiftl_low m k a : a < 2 ^ k -> N.land (N.shiftl m k) a = 0.
Proof.
  intros H. apply N.bits_inj. intros i. rewrite N.land_spec, N.bits_0.
  destruct (N.lt_ge_cases i k) as [Hi|Hi].
  - now rewrite N.shiftl_spec_low.
  - rewrite <- (N.mod_small a (2 ^ k)) by assumption.
    rewrite N.mod_pow2_bits_high by assumption. apply andb_false_r.
Qed.

Lemma lor_shiftl_low m k a :
  a < 2 ^ k -> N.lor (N.shiftl m k) a = N.shiftl m k + a.
Proof.
  intros H. pose proof (land_shiftl_low m k a H) as Hand.
  rewrite N.add_nocarry_lxor by assumption.
  symmetry. now apply N.lxor_lor.
Qed.

(** The two halves of a character above the basic plane. *)
Lemma surrogates_of c :
  0x10000 <= c -> c < 0x110000 ->
  let n := c - 0x10000 in
  let s1 := N.lor 0xd800 (N.land (N.shiftr n 10) 0x3ff) in
  let s2 := N.lor 0xdc00 (N.land n 0x3ff) in
  is_high s1 = true /\ is_low s2 = true
  /\ 0x10000 + N.lor (N.shiftl (s1 - 0xd800) 10) (s2 - 0xdc00) = c.
Proof.
  intros Hlo Hhi n s1 s2.
  assert (Hn : n < 0x100000) by (unfold n; lia).
  assert (Eq : N.shiftr n 10 = n / 1024) by apply N.shiftr_div_pow2.
  assert (Hq : n / 1024 < 1024).
  { zify. Z.to_euclidean_division_equations. lia. }
  assert (Hr : n mod 1024 < 1024) by (apply N.mod_lt; discriminate).
  assert (E1 : s1 = 0xd800 + n / 1024).
  { unfold s1. change 0x3ff with (N.ones 10). rewrite N.land_ones, Eq.
    rewrite N.mod_small by exact Hq.
    change 0xd800 with (N.shiftl 54 10). now apply lor_shiftl_low. }
  assert (E2 : s2 = 0xdc00 + n mod 1024).
  { unfold s2. change 0x3ff with (N.ones 10). rewrite N.land_ones.
    change 0xdc00 with (N.shiftl 55 10). now apply lor_shiftl_low. }
  assert (Hc : c = 0x10000 + (1024 * (n / 1024) + n mod 1024)).
  { rewrite <- N.div_mod by discriminate. unfold n. lia. }
  rewrite E1, E2. clear E1 E2 Eq Hn. clearbody n.
  generalize dependent (n / 1024). generalize dependent (n mod 1024).
  intros r Hr q Hq Hc.
  split; [|split].
  - unfold is_high. apply andb_true_intro. split; apply N.leb_le; lia.
  - unfold is_low. apply andb_true_intro. split; apply N.leb_le; lia.
  - replace (0xd800 + q - 0xd800) with q by lia.
    replace (0xdc00 + r - 0xdc00) with r by lia.
    rewrite lor_shiftl_low by exact Hr.
    rewrite N.shiftl_mul_pow2. change (2 ^ 10) with 1024. lia.
Qed.

Lemma scan_char_u uni tail h :
  decode_uXXXX h = Some (uni, tail) ->
  (is_high uni = true -> low_escape_ahead tail = false) ->
  scan_char (BACKSLASH :: ch "u" :: h) = Return (Some uni, tail).
Proof.
  intros Hd Hahead. unfold scan_char.
  change (BACKSLASH =? QUOTE) with false.
  change (BACKSLASH <? 32) with false.
  change (negb (BACKSLASH =? BACKSLASH)) with false.
  change (negb (ch "u" =? ch "u")) with false.
  cbv iota. rewrite Hd.
  fold (is_high uni). destruct (is_high uni); [|reflexivity].
  specialize (Hahead eq_refl). unfold low_escape_ahead in Hahead.
  destruct tail as [|b [|u s4]]; try reflexivity.
  destruct ((b =? BACKSLASH) && (u =? ch "u")); [|reflexivity].
  destruct (decode_uXXXX s4) as [[uni2 s5]|]; [|discriminate].
  fold (is_low uni2). now rewrite Hahead.
Qed.

(** The scanner reads back what the encoder wrote for one character. *)
Lemma scan_char_escape c tail :
  c < 0x110000 ->
  (is_high c = true -> low_escape_ahead tail = false) ->
  scan_char (escape_char c ++ tail) = Return (Some c, tail).
Proof.
  intros Hc Hahead. unfold escape_char.
  destruct (c =? BACKSLASH) eqn:E1.
  { apply N.eqb_eq in E1. subst c. reflexivity. }
  destruct (c =? QUOTE) eqn:E2.
  { apply N.eqb_eq in E2. subst c. reflexivity. }
  destruct (c =? 8) eqn:E3.
  { apply N.eqb_eq in E3. subst c. reflexivity. }
  destruct (c =? 12) eqn:E4.
  { apply N.eqb_eq in E4. subst c. reflexivity. }
  destruct (c =? 10) eqn:E5.
  { apply N.eqb_eq in E5. subst c. reflexivity. }
  destruct (c =? 13) eqn:E6.
  { apply N.eqb_eq in E6. subst c. reflexivity. }
  destruct (c =? 9) eqn:E7.
  { apply N.eqb_eq in E7. subst c. reflexivity. }
  destruct ((32 <=? c) && (c <=? 126)) eqn:E8.
  { apply andb_prop in E8 as [Hlo _]. apply N.leb_le in Hlo.
    simpl. rewrite E2, E1. simpl.
    destruct (c <? 32) eqn:E9; [apply N.ltb_lt in E9; lia | reflexivity]. }
  destruct (c <? 0x10000) eqn:E9.
  { apply N.ltb_lt in E9.
    destruct (decode_u_escape c tail E9) as (h & -> & Hd).
    now apply scan_char_u. }
  apply N.ltb_ge in E9.
  destruct (surrogates_of c E9 Hc) as (Hhigh & Hlow & Hcomb).
  cbv zeta. cbv zeta in Hhigh, Hlow, Hcomb.
  set (s1 := N.lor 55296 (N.land (N.shiftr (c - 65536) 10) 1023)) in *.
  set (s2 := N.lor 56320 (N.land (c - 65536) 1023)) in *.
  assert (H1 : s1 < 0x10000).
  { unfold is_high in Hhigh. apply andb_prop in Hhigh as [_ H].
    apply N.leb_le in H. lia. }
  assert (H2 : s2 < 0x10000).
  { unfold is_low in Hlow. apply andb_prop in Hlow as [_ H].
    apply N.leb_le in H. lia. }
  rewrite <- app_assoc.
  destruct (decode_u_escape s1 (u_escape s2 ++ tail) H1) as (h1 & -> & Hd1).
  destruct (decode_u_escape s2 tail H2) as (h2 & E & Hd2).
  rewrite E in Hd1. clear E.
  unfold scan_char.
  change (BACKSLASH =? QUOTE) with false.
  change (BACKSLASH <? 32) with false.
  change (negb (BACKSLASH =? BACKSLASH)) with false.
  change (negb (ch "u" =? ch "u")) with false.
  cbv iota. rewrite Hd1.
  fold (is_high s1). rewrite Hhigh.
  change ((BACKSLASH =? BACKSLASH) && (ch "u" =? ch "u")) with true.
  cbv iota. rewrite Hd2. fold (is_low s2). rewrite Hlow.
  now rewrite Hcomb.
Qed.

Lemma high_not_low c : is_high c = true -> is_low c = false.
Proof.
  unfold is_high, is_low. intros H. apply andb_prop in H as [_ H].
  apply N.leb_le in H. apply andb_false_intro1. apply N.leb_gt. lia.
Qed.

(** The escape of a character that is not a low surrogate is not
    taken for one. *)
Lemma escape_char_no_low_ahead c tail :
  c < 0x110000 -> is_low c = false ->
  low_escape_ahead (escape_char c ++ tail) = false.
Proof.
  intros Hc Hlow. unfold escape_char.
  destruct (c =? BACKSLASH) eqn:E1; [reflexivity|].
  destruct (c =? QUOTE) eqn:E2; [reflexivity|].
  destruct (c =? 8) eqn:E3; [reflexivity|].
  destruct (c =? 12) eqn:E4; [reflexivity|].
  destruct (c =? 10) eqn:E5; [reflexivity|].
  destruct (c =? 13) eqn:E6; [reflexivity|].
  destruct (c =? 9) eqn:E7; [reflexivity|].
  destruct ((32 <=? c) && (c <=? 126)) eqn:E8.
  { simpl. destruct tail; [reflexivity|]. now rewrite E1. }
  destruct (c <? 0x10000) eqn:E9.
  { apply N.ltb_lt in E9.
    destruct (decode_u_escape c tail E9) as (h & -> & Hd).
    unfold low_escape_ahead.
    change ((BACKSLASH =? BACKSLASH) && (ch "u" =? ch "u")) with true.
    cbv iota. now rewrite Hd. }
  apply N.ltb_ge in E9.
  destruct (surrogates_of c E9 Hc) as (Hhigh & _ & _).
  cbv zeta in Hhigh |- *.
  set (s1 := N.lor 55296 (N.land (N.shiftr (c - 65536) 10) 1023)) in *.
  set (s2 := N.lor 56320 (N.land (c - 65536) 1023)) in *.
  assert (H1 : s1 < 0x10000).
  { unfold is_high in Hhigh. apply andb_prop in Hhigh as [_ H].
    apply N.leb_le in H. lia. }
  rewrite <- !app_assoc.
  destruct (decode_u_escape s1 (u_escape s2 ++ tail) H1) as (h & -> & Hd).
  unfold low_escape_ahead.
  change ((BACKSLASH =? BACKSLASH) && (ch "u" =? ch "u")) with true.
  cbv iota. rewrite Hd. now apply high_not_low.
Qed.

Lemma escaped_no_low_ahead s rest :
  match s with
  | c :: _ => c < 0x110000 /\ is_low c = false
  | [] => True
  end ->
  low_escape_ahead (flat_map escape_char s ++ QUOTE :: rest) = false.
Proof.
  destruct s as [|c s].
  - intros _. simpl. now destruct rest.
  - intros [Hc Hlow]. cbn [flat_map]. rewrite <- app_assoc.
    now apply escape_char_no_low_ahead.
Qed.

(** [scanstring] reads back the body of an encoded string. *)
Lemma scanstring_escaped s :
  wf_str s = true ->
  forall fuel rest,
    (length s < fuel)%nat ->
    scanstring fuel (flat_map escape_char s ++ QUOTE :: rest)
    = Return (s, rest).
Proof.
  induction s as [|c s IH]; intros Hwf fuel rest Hfuel.
  - destruct fuel as [|fuel]; [inversion Hfuel|]. reflexivity.
  - destruct fuel as [|fuel]; [inversion Hfuel|].
    cbn [wf_str] in Hwf.
    apply andb_prop in Hwf as [Hwf Hs]. apply andb_prop in Hwf as [Hc Hpair].
    apply N.ltb_lt in Hc.
    cbn [flat_map scanstring]. rewrite <- app_assoc.
    rewrite scan_char_escape; [| exact Hc |].
    + cbn [res_bind]. rewrite IH; [reflexivity | exact Hs |].
      simpl in Hfuel. lia.
    + intros Hhigh. apply escaped_no_low_ahead.
      destruct s as [|c' s']; [exact I|].
      rewrite Hhigh in Hpair. simpl in Hpair.
      apply negb_true_iff in Hpair. split; [|exact Hpair].
      cbn [wf_str] in Hs. apply andb_prop in Hs as [Hs _].
      apply andb_prop in Hs as [Hs _]. now apply N.ltb_lt in Hs.
Qed.

(** *** Integers *)

Lemma uint_of_digits_str u : uint_of_digits (uint_str u) = u.
Proof. induction u; simpl; now rewrite ?IHu. Qed.

Lemma value_end_no_float rest : value_end rest = true -> float_follows rest = false.
Proof.
  destruct rest as [|c [|d rest]]; try reflexivity.
  unfold value_end, float_follows. intros H.
  apply andb_prop in H as [H HE]. apply andb_prop in H as [H He].
  apply andb_prop in H as [_ Hdot].
  apply negb_true_iff in HE, He, Hdot. now rewrite Hdot, He, HE.
Qed.

Lemma span_digits_str u rest :
  value_end rest = true ->
  span_digits (uint_str u ++ rest) = (uint_str u, rest).
Proof.
  intros Hend. induction u; simpl; rewrite ?IHu; try reflexivity.
  destruct rest as [|c rest]; [reflexivity|].
  simpl in Hend. simpl.
  destruct (is_digit c); [discriminate | reflexivity].
Qed.

(** The digits of a positive number do not start with a zero. *)
Lemma to_uint_head p :
  exists c ds, uint_str (Pos.to_uint p) = c :: ds
               /\ is_digit c = true /\ (c =? ch "0") = false.
Proof.
  pose proof (DecimalPos.Unsigned.to_of (Pos.to_uint p)) as H.
  rewrite DecimalPos.Unsigned.of_to in H. simpl in H.
  pose proof (DecimalPos.Unsigned.to_uint_nonzero p) as Hnz.
  unfold Decimal.unorm in H.
  destruct (Pos.to_uint p) as [|u|u|u|u|u|u|u|u|u|u] eqn:E;
    try (eexists _, _; repeat split; reflexivity).
  - (* no digits *) now destruct (DecimalPos.Unsigned.to_uint_nonnil p).
  - (* a leading zero *) exfalso. simpl in H.
    destruct (Decimal.nzhead u) eqn:En; try discriminate.
    + injection H as H. subst u. now apply Hnz.
    + injection H as H. subst u. now apply DecimalFacts.nzhead_nonzero in En.
Qed.

Lemma match_number_repr z rest :
  value_end rest = true ->
  match_number (int_repr z ++ rest) = Some (Return (VInt z, rest)).
Proof.
  intros Hend. pose proof (value_end_no_float rest Hend) as Hfl.
  rewrite <- (DecimalZ.of_to z) at 2.
  unfold int_repr. destruct z as [|p|p]; cbn [Z.to_int].
  - simpl. unfold match_number. simpl. now rewrite Hfl.
  - destruct (to_uint_head p) as (c & ds & E & Hd & Hz).
    unfold match_number. rewrite E. cbn [app].
    assert (Hm : (c =? ch "-") = false).
    { apply N.eqb_neq. intros ->. discriminate. }
    rewrite Hm, Hd, Hz.
    pose proof (span_digits_str (Pos.to_uint p) rest Hend) as Hs.
    rewrite E in Hs. cbn [app span_digits] in Hs. rewrite Hd in Hs.
    destruct (span_digits (ds ++ rest)) as [ds' rest'].
    injection Hs as -> ->. rewrite Hfl.
    now rewrite <- E, uint_of_digits_str.
  - destruct (to_uint_head p) as (c & ds & E & Hd & Hz).
    unfold match_number. cbn [app]. rewrite N.eqb_refl.
    rewrite E. cbn [app]. rewrite Hd, Hz.
    pose proof (span_digits_str (Pos.to_uint p) rest Hend) as Hs.
    rewrite E in Hs. cbn [app span_digits] in Hs. rewrite Hd in Hs.
    destruct (span_digits (ds ++ rest)) as [ds' rest'].
    injection Hs as -> ->. rewrite Hfl.
    now rewrite <- E, uint_of_digits_str.
Qed.

(** *** Values *)

Lemma value_ind' (P : value -> Prop) :
  P VNone -> (forall b, P (VBool b)) -> (forall z, P (VInt z)) ->
  (forall s, P (VStr s)) ->
  (forall l, Forall P l -> P (VList l)) ->
  (forall d, Forall (fun kv => P (snd kv)) d -> P (VDict d)) ->
  forall v, P v.
Proof.
  intros HN HB HI HS HL HD. fix IH 1. intros [| b | z | s | l | d].
  - exact HN.
  - apply HB.
  - apply HI.
  - apply HS.
  - apply HL. induction l as [|v l IHl]; constructor; [apply IH | exact IHl].
  - apply HD. induction d as [|[k v] d IHd]; constructor;
      [apply IH | exact IHd].
Qed.

Lemma value_start_cases c :
  value_start c = true ->
  c = ch "n" \/ c = ch "t" \/ c = ch "f" \/ c = ch "-"
  \/ (ch "0" <= c /\ c <= ch "9") \/ c = QUOTE \/ c = ch "[" \/ c = ch "{".
Proof.
  unfold value_start, is_digit. intros H.
  repeat (apply orb_prop in H as [H|H]);
    try (apply N.eqb_eq in H; tauto).
  apply andb_prop in H as [H1 H2]. apply N.leb_le in H1, H2. tauto.
Qed.

Lemma int_repr_head z :
  exists c r, int_repr z = c :: r /\ (is_digit c = true \/ c = ch "-").
Proof.
  unfold int_repr. destruct z as [|p|p]; cbn [Z.to_int].
  - eexists _, _. split; [reflexivity | now left].
  - destruct (to_uint_head p) as (c & ds & E & Hd & _).
    exists c, ds. split; [exact E | now left].
  - eexists _, _. split; [reflexivity | now right].
Qed.

Lemma dumps_head v :
  exists c r, dumps v = c :: r /\ value_start c = true.
Proof.
  destruct v as [| [|] | z | s | l | d];
    try (eexists _, _; split; reflexivity).
  destruct (int_repr_head z) as (c & r & E & [Hd | ->]).
  - exists c, r. split; [exact E|]. unfold value_start. rewrite Hd.
    now rewrite !orb_true_r.
  - exists (ch "-"), r. split; [exact E | reflexivity].
Qed.

Lemma value_start_not_ws c : value_start c = true -> is_ws c = false.
Proof.
  intros H. apply value_start_cases in H.
  unfold is_ws. rewrite !orb_false_iff, !N.eqb_neq. ch_values. lia.
Qed.

Lemma skip_ws_dumps v x : skip_ws (dumps v ++ x) = dumps v ++ x.
Proof.
  destruct (dumps_head v) as (c & r & -> & Hc). simpl.
  now rewrite (value_start_not_ws c Hc).
Qed.

Lemma escape_char_nonempty c : (1 <= length (escape_char c))%nat.
Proof.
  unfold escape_char.
  repeat match goal with
         | |- context [if ?b then _ else _] => destruct b
         end; simpl; lia.
Qed.

Lemma length_escaped s : (length s <= length (flat_map escape_char s))%nat.
Proof.
  induction s as [|c s IH]; simpl; [lia|].
  rewrite length_app. pose proof (escape_char_nonempty c). lia.
Qed.

Lemma join_length_In sep (p : str) parts :
  In p parts -> (length p <= length (join sep parts))%nat.
Proof.
  induction parts as [|q parts IH]; intros Hin; [destruct Hin|].
  destruct Hin as [-> | Hin].
  - destruct parts; simpl; rewrite ?length_app; lia.
  - specialize (IH Hin). destruct parts as [|q' parts']; [destruct Hin|].
    change (join sep (q :: q' :: parts'))
      with (q ++ sep ++ join sep (q' :: parts')).
    rewrite !length_app. lia.
Qed.

Lemma join_length_count sep parts :
  Forall (fun p : str => (1 <= length p)%nat) parts ->
  (length parts <= length (join sep parts))%nat.
Proof.
  induction 1 as [|p parts Hp _ IH]; [simpl; lia|].
  destruct parts as [|q parts']; [simpl; lia|].
  change (join sep (p :: q :: parts'))
    with (p ++ sep ++ join sep (q :: parts')).
  cbn [length] in *. rewrite !length_app. lia.
Qed.

Lemma dumps_nonempty v : (1 <= length (dumps v))%nat.
Proof. destruct (dumps_head v) as (c & r & -> & _). simpl. lia. Qed.

(** *** Arrays and objects *)

Lemma join_cons_app sep (p : str) ps : exists t, join sep (p :: ps) = p ++ t.
Proof.
  destruct ps as [|q ps].
  - exists []. simpl. now rewrite app_nil_r.
  - eexists. reflexivity.
Qed.

Section Loops.
Variable scan : str -> Res (value * str).

Lemma array_loop_join l :
  l <> [] -> Forall (reads scan) l ->
  forall fuel rest,
    (length l <= fuel)%nat ->
    array_loop scan fuel
      (join (lit ", ") (List.map dumps l) ++ ch "]" :: rest)
    = Return (l, rest).
Proof.
  induction l as [|v l IH]; [congruence|].
  intros _ Hall fuel rest Hfuel.
  apply Forall_cons_iff in Hall as [Hv Hall].
  destruct fuel as [|fuel]; [simpl in Hfuel; lia|].
  destruct l as [|v2 l'].
  - cbn [List.map join array_loop].
    rewrite Hv by reflexivity. reflexivity.
  - change (join (lit ", ") (List.map dumps (v :: v2 :: l')))
      with (dumps v ++ [ch ","; 32]
            ++ join (lit ", ") (List.map dumps (v2 :: l'))).
    rewrite <- !app_assoc. cbn [array_loop].
    rewrite Hv by reflexivity. cbn [res_bind].
    cbn [app].
    change (skip_ws (ch "," :: 32 :: ?x)) with (ch "," :: 32 :: x).
    cbv iota. change (ch "," =? ch "]") with false.
    change (ch "," =? ch ",") with true. cbv iota.
    assert (Hskip : forall x,
               skip_ws (32 :: join (lit ", ") (List.map dumps (v2 :: l')) ++ x)
               = join (lit ", ") (List.map dumps (v2 :: l')) ++ x).
    { intros x. cbn [List.map].
      destruct (join_cons_app (lit ", ") (dumps v2) (List.map dumps l'))
        as (t & ->).
      rewrite <- app_assoc.
      change (skip_ws (32 :: ?y)) with (skip_ws y). apply skip_ws_dumps. }
    rewrite Hskip.
    rewrite IH; [reflexivity | discriminate | exact Hall |].
    simpl in Hfuel |- *. lia.
Qed.

Lemma item_eq kv : item kv = QUOTE :: item_body kv.
Proof.
  unfold item, item_body, encode_basestring_ascii.
  cbn [app]. now rewrite <- app_assoc.
Qed.

Lemma join_items kv d rest :
  join (lit ", ") (List.map item (kv :: d)) ++ ch "}" :: rest
  = QUOTE :: item_body kv ++ items_tail d rest.
Proof.
  destruct d as [|kv' d].
  - cbn [List.map join items_tail]. rewrite item_eq. reflexivity.
  - change (join (lit ", ") (List.map item (kv :: kv' :: d)))
      with (item kv ++ [ch ","; 32]
            ++ join (lit ", ") (List.map item (kv' :: d))).
    rewrite item_eq. cbn [items_tail app]. rewrite <- !app_assoc.
    reflexivity.
Qed.

Lemma object_loop_items d :
  Forall (fun kv => wf_str (fst kv) = true /\ reads scan (snd kv)) d ->
  forall kv fuel rest,
    wf_str (fst kv) = true -> reads scan (snd kv) ->
    (length d < fuel)%nat ->
    object_loop scan fuel (item_body kv ++ items_tail d rest)
    = Return (kv :: d, rest).
Proof.
  induction d as [|kv' d IH]; intros Hall [k v] fuel rest Hk Hv Hfuel;
    (destruct fuel as [|fuel]; [simpl in Hfuel; lia|]);
    cbn [fst snd] in Hk, Hv; unfold item_body; cbn [fst snd];
    rewrite <- app_assoc; cbn [app object_loop];
    (rewrite scanstring_escaped;
       [| exact Hk
        | rewrite length_app; pose proof (length_escaped k); lia]);
    cbn [res_bind];
    change (skip_ws (ch ":" :: ?x)) with (ch ":" :: x); cbv iota;
    change (ch ":" =? ch ":") with true; cbv iota;
    change (skip_ws (32 :: ?y)) with (skip_ws y);
    rewrite skip_ws_dumps.
  - rewrite Hv by reflexivity. reflexivity.
  - apply Forall_cons_iff in Hall as [[Hk' Hv'] Hall].
    rewrite Hv by reflexivity. cbn [res_bind items_tail].
    change (skip_ws (ch "," :: ?x)) with (ch "," :: x). cbv iota.
    change (ch "," =? ch "}") with false.
    change (ch "," =? ch ",") with true. cbv iota.
    change (skip_ws (32 :: ?y)) with (skip_ws y).
    rewrite join_items.
    change (skip_ws (QUOTE :: ?x)) with (QUOTE :: x). cbv iota.
    change (QUOTE =? QUOTE) with true. cbv iota.
    rewrite IH; [reflexivity | exact Hall | exact Hk' | exact Hv' |].
    simpl in Hfuel. lia.
Qed.

End Loops.

(** *** [loads] after [dumps] *)

Lemma distinct_NoDup ks : distinct ks = true -> List.NoDup ks.
Proof.
  induction ks as [|k ks IH]; simpl; intros H; constructor.
  - apply andb_prop in H as [H _]. apply negb_true_iff in H.
    intros Hin. apply not_true_iff_false in H. apply H.
    apply existsb_exists. exists k. split; [exact Hin | apply str_eqb_refl].
  - apply IH. now apply andb_prop in H as [_ H].
Qed.

(** At a digit or a minus sign, [scan_once] goes to the number. *)
Lemma scan_once_number fuel c s r :
  is_digit c = true \/ c = ch "-" ->
  match_number (c :: s) = Some r ->
  scan_once (S fuel) (c :: s) = r.
Proof.
  intros Hc Hm.
  assert (Hr : (48 <= c /\ c <= 57) \/ c = 45).
  { destruct Hc as [Hc | ->]; [left | now right].
    unfold is_digit in Hc. apply andb_prop in Hc as [H1 H2].
    apply N.leb_le in H1, H2. ch_values. lia. }
  cbn [scan_once]. rewrite Hm.
  assert (E1 : (c =? QUOTE) = false) by (apply N.eqb_neq; unfold QUOTE; lia).
  assert (E2 : (c =? ch "{") = false) by (apply N.eqb_neq; ch_values; lia).
  assert (E3 : (c =? ch "[") = false) by (apply N.eqb_neq; ch_values; lia).
  rewrite E1, E2, E3.
  assert (En : (110 =? c) = false) by (apply N.eqb_neq; lia).
  assert (Et : (116 =? c) = false) by (apply N.eqb_neq; lia).
  assert (Ef : (102 =? c) = false) by (apply N.eqb_neq; lia).
  change (starts_with (lit "null") (c :: s))
    with (if 110 =? c then starts_with [117; 108; 108] s else None).
  change (starts_with (lit "true") (c :: s))
    with (if 116 =? c then starts_with [114; 117; 101] s else None).
  change (starts_with (lit "false") (c :: s))
    with (if 102 =? c then starts_with [97; 108; 115; 101] s else None).
  now rewrite En, Et, Ef.
Qed.

Lemma scan_once_dumps v :
  wf_value v = true ->
  forall fuel rest,
    (length (dumps v) <= fuel)%nat ->
    value_end rest = true ->
    scan_once fuel (dumps v ++ rest) = Return (v, rest).
Proof.
  induction v as [| b | z | s | l IH | d IH] using value_ind';
    intros Hwf fuel rest Hfuel Hend;
    match type of Hfuel with
    | (length (dumps ?v) <= _)%nat =>
        destruct fuel as [|fuel]; [pose proof (dumps_nonempty v); lia|]
    end.
  - reflexivity.
  - destruct b; reflexivity.
  - destruct (int_repr_head z) as (c & r & E & Hc).
    pose proof (match_number_repr z rest Hend) as Hm.
    cbn [dumps] in *. rewrite E in Hm |- *. cbn [app] in Hm |- *.
    now apply scan_once_number.
  - cbn [dumps wf_value] in *. unfold encode_basestring_ascii.
    cbn [app scan_once]. change (QUOTE =? QUOTE) with true. cbv iota.
    rewrite <- app_assoc. cbn [app].
    rewrite scanstring_escaped; [reflexivity | exact Hwf |].
    rewrite length_app. pose proof (length_escaped s). lia.
  - cbn [dumps wf_value] in *. cbn [app scan_once].
    change (ch "[" =? QUOTE) with false. change (ch "[" =? ch "{") with false.
    change (ch "[" =? ch "[") with true. cbv iota.
    rewrite <- app_assoc. cbn [app]. unfold JSONArray.
    destruct l as [|v l].
    + reflexivity.
    + assert (Hreads : Forall (reads (scan_once fuel)) (v :: l)).
      { apply List.Forall_forall. intros x Hx rest' Hend'.
        rewrite List.Forall_forall in IH. apply (IH x Hx); [| | exact Hend'].
        - rewrite List.forallb_forall in Hwf. now apply Hwf.
        - pose proof (join_length_In (lit ", ") (dumps x)
                        (List.map dumps (v :: l)) (in_map dumps _ _ Hx)).
          rewrite length_cons, length_app in Hfuel. lia. }
      pose proof (array_loop_join (scan_once fuel) (v :: l)
                    ltac:(discriminate) Hreads) as Hloop.
      set (J := join (lit ", ") (List.map dumps (v :: l))) in *.
      assert (HJ : exists c t, J ++ ch "]" :: rest = c :: t
                               /\ value_start c = true).
      { unfold J. cbn [List.map].
        destruct (join_cons_app (lit ", ") (dumps v) (List.map dumps l))
          as (t & ->).
        destruct (dumps_head v) as (c & r & -> & Hc).
        eexists _, _. split; [reflexivity | exact Hc]. }
      destruct HJ as (c & t & EJ & Hc).
      assert (Hlen : (length (v :: l) <= S (length (J ++ ch "]" :: rest)))%nat).
      { rewrite length_app.
        pose proof (join_length_count (lit ", ") (List.map dumps (v :: l))) as Hcnt.
        rewrite length_map in Hcnt. fold J in Hcnt.
        assert (Forall (fun p : str => (1 <= length p)%nat)
                  (List.map dumps (v :: l))).
        { apply List.Forall_forall. intros p Hp.
          apply in_map_iff in Hp as (x & <- & _). apply dumps_nonempty. }
        specialize (Hcnt H). lia. }
      specialize (Hloop _ rest Hlen).
      rewrite EJ in Hloop |- *.
      cbn [skip_ws]. rewrite (value_start_not_ws c Hc).
      assert (Eb : (c =? ch "]") = false).
      { apply N.eqb_neq. apply value_start_cases in Hc. ch_values. lia. }
      rewrite Eb, Hloop. reflexivity.
  - cbn [dumps wf_value] in *.
    change (List.map (fun kv => encode_basestring_ascii (fst kv)
                                ++ lit ": " ++ dumps (snd kv)) d)
      with (List.map item d) in *.
    apply andb_prop in Hwf as [Hkeys Hwf].
    cbn [app scan_once].
    change (ch "{" =? QUOTE) with false. change (ch "{" =? ch "{") with true.
    cbv iota. rewrite <- app_assoc. cbn [app]. unfold JSONObject.
    destruct d as [|kv d].
    + reflexivity.
    + assert (Hitems : Forall (fun kv => wf_str (fst kv) = true
                                 /\ reads (scan_once fuel) (snd kv))
                         (kv :: d)).
      { apply List.Forall_forall. intros x Hx.
        rewrite List.forallb_forall in Hwf. specialize (Hwf x Hx).
        apply andb_prop in Hwf as [Hk Hv]. split; [exact Hk|].
        intros rest' Hend'.
        rewrite List.Forall_forall in IH. apply (IH x Hx); [exact Hv | | exact Hend'].
        pose proof (join_length_In (lit ", ") (item x)
                      (List.map item (kv :: d)) (in_map item _ _ Hx)) as Hlen.
        unfold item at 1 in Hlen.
        rewrite length_cons, length_app in Hfuel.
        rewrite !length_app in Hlen. lia. }
      rewrite join_items in *.
      change (skip_ws (QUOTE :: ?x)) with (QUOTE :: x). cbv iota.
      change (QUOTE =? ch "}") with false. change (QUOTE =? QUOTE) with true.
      cbv iota.
      apply Forall_cons_iff in Hitems as [[Hk Hv] Hitems].
      rewrite (object_loop_items (scan_once fuel) d Hitems kv _ rest Hk Hv).
      * cbn [res_bind]. rewrite dict_of_pairs_NoDup; [reflexivity|].
        now apply distinct_NoDup.
      * pose proof (join_length_count (lit ", ") (List.map item (kv :: d)))
          as Hcnt.
        rewrite length_map in Hcnt.
        assert (Hne : Forall (fun p : str => (1 <= length p)%nat)
                        (List.map item (kv :: d))).
        { apply List.Forall_forall. intros p Hp.
          apply in_map_iff in Hp as (x & <- & _). rewrite item_eq.
          simpl. lia. }
        specialize (Hcnt Hne).
        assert (Hj : (length (join (lit ", ") (List.map item (kv :: d)))
                      <= length (QUOTE :: item_body kv ++ items_tail d rest))%nat).
        { rewrite <- join_items. rewrite length_app. lia. }
        cbn [length] in Hcnt, Hj |- *. lia.
Qed.

(** [json.loads(json.dumps(v))] is [v]. *)
Lemma loads_dumps v : wf_value v = true -> loads (dumps v) = Return v.
Proof.
  intros Hwf. unfold loads.
  rewrite <- (app_nil_r (dumps v)) at 2. rewrite skip_ws_dumps, app_nil_r.
  rewrite <- (app_nil_r (dumps v)) at 2.
  rewrite scan_once_dumps; [reflexivity | exact Hwf | lia | reflexivity].
Qed.

End CodecFacts.

(* ----------------------------------------------------------------- *)
(** ** The scanner has fuel enough *)

Section FuelFacts.
Import Json.
Local Open Scope nat_scope.

Lemma consumes_bind {A B} (r : Res (A * str)) (f : A * str -> Res (B * str))
    (s : str) :
  consumes r s ->
  (forall a rest, r = Return (a, rest) -> length rest < length s ->
                  consumes (f (a, rest)) s) ->
  consumes (res_bind r f) s.
Proof.
  intros [Hne Hlen] Hf. destruct r as [[a rest]|e|]; cbn [res_bind].
  - apply Hf; [reflexivity | now apply (Hlen a rest)].
  - split; [|discriminate]. intros E. apply Hne. congruence.
  - split; discriminate.
Qed.

Lemma consumes_Return {A} (a : A) (rest s : str) :
  length rest < length s -> consumes (Return (a, rest)) s.
Proof.
  intros H. split; [discriminate|]. intros a' rest' E.
  injection E as _ <-. exact H.
Qed.

Lemma consumes_Raise {A} (s : str) :
  consumes (A := A) (Raise JSONDecodeError) s.
Proof. split; discriminate. Qed.

Lemma consumes_Unmodelled {A} (s : str) : consumes (A := A) Unmodelled s.
Proof. split; discriminate. Qed.

Lemma consumes_longer {A} (r : Res (A * str)) (s s' : str) :
  consumes r s -> length s <= length s' -> consumes r s'.
Proof.
  intros [Hne Hlen] Hle. split; [exact Hne|].
  intros a rest E. specialize (Hlen a rest E). lia.
Qed.

Lemma skip_ws_length s : length (skip_ws s) <= length s.
Proof.
  induction s as [|c s IH]; simpl; [lia|].
  destruct (is_ws c); simpl; lia.
Qed.

Lemma decode_uXXXX_length s uni rest :
  decode_uXXXX s = Some (uni, rest) -> length s = 4 + length rest.
Proof.
  unfold decode_uXXXX. destruct s as [|h1 [|h2 [|h3 [|h4 r]]]];
    try discriminate.
  destruct (hex_value h1), (hex_value h2), (hex_value h3), (hex_value h4);
    try discriminate.
  intros E. injection E as _ <-. reflexivity.
Qed.

Lemma scan_char_consumes s : consumes (scan_char s) s.
Proof.
  unfold scan_char. destruct s as [|c s1]; [apply consumes_Raise|].
  destruct (c =? QUOTE)%N; [apply consumes_Return; simpl; lia|].
  destruct (c <? 32)%N; [apply consumes_Raise|].
  destruct (negb (c =? BACKSLASH)%N); [apply consumes_Return; simpl; lia|].
  destruct s1 as [|esc s2]; [apply consumes_Raise|].
  destruct (negb (esc =? ch "u")%N).
  { destruct (unescape esc); [apply consumes_Return; simpl; lia|].
    apply consumes_Raise. }
  destruct (decode_uXXXX s2) as [[uni s3]|] eqn:E1; [|apply consumes_Raise].
  apply decode_uXXXX_length in E1.
  assert (H3 : consumes (Return (Some uni, s3)) (c :: esc :: s2)).
  { apply consumes_Return. simpl. lia. }
  destruct ((55296 <=? uni)%N && (uni <=? 56319)%N); [|exact H3].
  destruct s3 as [|b [|u s4]]; try exact H3.
  destruct ((b =? BACKSLASH)%N && (u =? ch "u")%N); [|exact H3].
  destruct (decode_uXXXX s4) as [[uni2 s5]|] eqn:E2; [|apply consumes_Raise].
  apply decode_uXXXX_length in E2.
  destruct ((56320 <=? uni2)%N && (uni2 <=? 57343)%N); [|exact H3].
  apply consumes_Return. simpl in *. lia.
Qed.

Lemma scanstring_consumes fuel s :
  length s < fuel -> consumes (scanstring fuel s) s.
Proof.
  revert s. induction fuel as [|fuel IH]; intros s Hfuel; [lia|].
  cbn [scanstring]. apply consumes_bind; [apply scan_char_consumes|].
  intros [c|] rest _ Hlen.
  - apply consumes_bind.
    + apply consumes_longer with rest; [apply IH|]; lia.
    + intros chunk rest' _ Hlen'. apply consumes_Return. lia.
  - now apply consumes_Return.
Qed.

Lemma starts_with_length w s rest :
  starts_with w s = Some rest -> length s = length w + length rest.
Proof.
  revert s. induction w as [|c w IH]; intros s; simpl.
  - now intros [= ->].
  - destruct s as [|c' s]; [discriminate|].
    destruct (c =? c')%N; [|discriminate].
    intros H. apply IH in H. simpl. lia.
Qed.

Lemma span_digits_length s ds rest :
  span_digits s = (ds, rest) -> length s = length ds + length rest.
Proof.
  revert ds rest. induction s as [|c s IH]; intros ds rest; simpl.
  - now intros [= <- <-].
  - destruct (is_digit c).
    + destruct (span_digits s) as [ds' rest'].
      intros [= <- <-]. specialize (IH _ _ eq_refl). simpl. lia.
    + now intros [= <- <-].
Qed.

Lemma match_number_consumes s r :
  match_number s = Some r -> consumes r s.
Proof.
  unfold match_number.
  set (p := match s with
            | c :: s' => if (c =? ch "-")%N then (true, s') else (false, s)
            | [] => (false, s)
            end).
  assert (Hp : length (snd p) <= length s).
  { unfold p. destruct s as [|c s']; [simpl; lia|].
    destruct (c =? ch "-")%N; simpl; lia. }
  destruct p as [neg s1]. cbn [snd] in Hp.
  destruct s1 as [|c s2]; [discriminate|].
  destruct (is_digit c); [|discriminate].
  set (q := if (c =? ch "0")%N then ([c], s2)
            else let '(ds, rest) := span_digits s2 in (c :: ds, rest)).
  assert (Hq : length (snd q) <= length s2).
  { unfold q. destruct (c =? ch "0")%N; [simpl; lia|].
    destruct (span_digits s2) as [ds rest] eqn:E.
    apply span_digits_length in E. simpl. lia. }
  destruct q as [ds rest]. cbn [snd] in Hq.
  destruct (float_follows rest); intros [= <-].
  - apply consumes_Unmodelled.
  - apply consumes_Return. simpl in Hp. lia.
Qed.

Section LoopFuel.
Variable scan : str -> Res (value * str).
Variable n : nat.
Hypothesis scan_consumes : forall s, length s <= n -> consumes (scan s) s.

Lemma array_loop_consumes fuel s :
  length s < fuel -> length s <= n -> consumes (array_loop scan fuel s) s.
Proof.
  revert s. induction fuel as [|fuel IH]; intros s Hfuel Hn; [lia|].
  cbn [array_loop]. apply consumes_bind; [now apply scan_consumes|].
  intros v s1 _ Hlen. pose proof (skip_ws_length s1) as Hws.
  destruct (skip_ws s1) as [|c s2]; [apply consumes_Raise|].
  simpl in Hws.
  destruct (c =? ch "]")%N; [apply consumes_Return; lia|].
  destruct (c =? ch ",")%N; [|apply consumes_Raise].
  pose proof (skip_ws_length s2) as Hws2.
  apply consumes_bind.
  - apply consumes_longer with (skip_ws s2); [apply IH|]; lia.
  - intros vs rest _ Hlen'. apply consumes_Return. lia.
Qed.

Lemma JSONArray_consumes s :
  length s <= n -> consumes (JSONArray scan (S (length s)) s) (0%N :: s).
Proof.
  intros Hn. unfold JSONArray. pose proof (skip_ws_length s) as Hws.
  destruct (skip_ws s) as [|c s1]; [apply consumes_Raise|].
  destruct (c =? ch "]")%N; [apply consumes_Return; simpl in *; lia|].
  apply consumes_bind.
  - apply consumes_longer with (c :: s1);
      [apply array_loop_consumes | simpl in *]; lia.
  - intros vs rest _ Hlen. apply consumes_Return. lia.
Qed.

Lemma object_loop_consumes fuel s :
  length s < fuel -> length s <= n -> consumes (object_loop scan fuel s) s.
Proof.
  revert s. induction fuel as [|fuel IH]; intros s Hfuel Hn; [lia|].
  cbn [object_loop].
  apply consumes_bind; [apply scanstring_consumes; lia|].
  intros key s1 _ Hlen. pose proof (skip_ws_length s1) as Hws.
  destruct (skip_ws s1) as [|c s2]; [apply consumes_Raise|].
  simpl in Hws.
  destruct (c =? ch ":")%N; [|apply consumes_Raise].
  pose proof (skip_ws_length s2) as Hws2.
  apply consumes_bind.
  { apply consumes_longer with (skip_ws s2); [apply scan_consumes|]; lia. }
  intros v s3 _ Hlen3. pose proof (skip_ws_length s3) as Hws3.
  destruct (skip_ws s3) as [|c' s4]; [apply consumes_Raise|].
  simpl in Hws3.
  destruct (c' =? ch "}")%N; [apply consumes_Return; lia|].
  destruct (c' =? ch ",")%N; [|apply consumes_Raise].
  pose proof (skip_ws_length s4) as Hws4.
  destruct (skip_ws s4) as [|q s5]; [apply consumes_Raise|].
  simpl in Hws4.
  destruct (q =? QUOTE)%N; [|apply consumes_Raise].
  apply consumes_bind.
  - apply consumes_longer with s5; [apply IH|]; lia.
  - intros pairs rest _ Hlen'. apply consumes_Return. lia.
Qed.

Lemma JSONObject_consumes s :
  length s <= n -> consumes (JSONObject scan (S (length s)) s) (0%N :: s).
Proof.
  intros Hn. unfold JSONObject. pose proof (skip_ws_length s) as Hws.
  destruct (skip_ws s) as [|c s1]; [apply consumes_Raise|].
  simpl in Hws.
  destruct (c =? ch "}")%N; [apply consumes_Return; simpl; lia|].
  destruct (c =? QUOTE)%N; [|apply consumes_Raise].
  apply consumes_bind.
  - apply consumes_longer with s1;
      [apply object_loop_consumes | simpl]; lia.
  - intros pairs rest _ Hlen. apply consumes_Return. lia.
Qed.

End LoopFuel.

Lemma scan_once_consumes fuel s :
  length s < fuel -> consumes (scan_once fuel s) s.
Proof.
  revert s. induction fuel as [|fuel IH]; intros s Hfuel; [lia|].
  cbn [scan_once]. destruct s as [|nextchar s1]; [apply consumes_Raise|].
  simpl in Hfuel.
  destruct (nextchar =? QUOTE)%N.
  { apply consumes_bind.
    - apply consumes_longer with s1;
        [apply scanstring_consumes | simpl]; lia.
    - intros str rest _ Hlen. apply consumes_Return. lia. }
  destruct (nextchar =? ch "{")%N.
  { apply consumes_longer with (0%N :: s1); [|simpl; lia].
    apply JSONObject_consumes with (n := length s1); [|lia].
    intros s' Hs'. apply IH. lia. }
  destruct (nextchar =? ch "[")%N.
  { apply consumes_longer with (0%N :: s1); [|simpl; lia].
    apply JSONArray_consumes with (n := length s1); [|lia].
    intros s' Hs'. apply IH. lia. }
  destruct (starts_with (lit "null") (nextchar :: s1)) as [rest|] eqn:E1.
  { apply starts_with_length in E1. apply consumes_Return.
    change (length (lit "null")) with 4 in E1. lia. }
  destruct (starts_with (lit "true") (nextchar :: s1)) as [rest|] eqn:E2.
  { apply starts_with_length in E2. apply consumes_Return.
    change (length (lit "true")) with 4 in E2. lia. }
  destruct (starts_with (lit "false") (nextchar :: s1)) as [rest|] eqn:E3.
  { apply starts_with_length in E3. apply consumes_Return.
    change (length (lit "false")) with 5 in E3. lia. }
  destruct (match_number (nextchar :: s1)) as [r|] eqn:E4.
  { now apply match_number_consumes. }
  destruct (starts_with (lit "NaN") (nextchar :: s1)),
    (starts_with (lit "Infinity") (nextchar :: s1)),
    (starts_with (lit "-Infinity") (nextchar :: s1));
    try apply consumes_Unmodelled; apply consumes_Raise.
Qed.

(** [json.loads] never runs out of fuel. *)
Lemma loads_fuel s : loads s <> Raise RecursionError.
Proof.
  unfold loads. pose proof (skip_ws_length s) as Hws.
  destruct (scan_once_consumes (S (length s)) (skip_ws s)) as [Hne _]; [lia|].
  destruct (scan_once (S (length s)) (skip_ws s)) as [[obj rest]|e|];
    cbn [res_bind]; [|congruence|discriminate].
  destruct (skip_ws rest); discriminate.
Qed.

End FuelFacts.

(* ----------------------------------------------------------------- *)
(** ** The wire: [encode], [decode] and [strip] *)

Section WireFacts.
Import Json.
Local Open Scope N_scope.

Lemma to_N_byte_of_N n : n < 256 -> Byte.to_N (byte_of_N n) = n.
Proof.
  intros H. unfold byte_of_N. destruct (Byte.of_N n) as [b|] eqn:E.
  - now apply Byte.to_of_N.
  - apply Byte.of_N_None_iff in E. lia.
Qed.

(** ASCII text encodes byte for byte, and decodes back. *)
Lemma str_encode_ascii s :
  Forall (fun c => c < 128) s -> str_encode s = Return (List.map byte_of_N s).
Proof.
  induction 1 as [|c s Hc _ IH]; [reflexivity|].
  cbn [str_encode List.map]. unfold utf8_char.
  apply N.ltb_lt in Hc. rewrite Hc, IH. reflexivity.
Qed.

Lemma bytes_decode_ascii s :
  Forall (fun c => c < 128) s -> bytes_decode (List.map byte_of_N s) = Return s.
Proof.
  induction 1 as [|c s Hc _ IH]; [reflexivity|].
  cbn [bytes_decode List.map]. rewrite to_N_byte_of_N by lia.
  apply N.ltb_lt in Hc. rewrite Hc, IH. reflexivity.
Qed.

Lemma hex_digit_printable n : n < 16 -> printable (hex_digit n).
Proof.
  intros H. unfold hex_digit, printable. ch_values.
  destruct (n <? 10) eqn:E; [apply N.ltb_lt in E | apply N.ltb_ge in E]; lia.
Qed.

Lemma u_escape_printable n : Forall printable (u_escape n).
Proof.
  unfold u_escape.
  repeat constructor; try (unfold printable; ch_values; lia);
    apply hex_digit_printable; apply N.mod_lt; discriminate.
Qed.

Lemma escape_char_printable c : Forall printable (escape_char c).
Proof.
  unfold escape_char.
  repeat match goal with
         | |- context [if ?b then _ else _] => destruct b eqn:?
         end;
    try (repeat constructor; unfold printable; ch_values; lia).
  - apply andb_prop in Heqb6 as [H1 H2]. apply N.leb_le in H1, H2.
    repeat constructor; assumption.
  - apply u_escape_printable.
  - apply List.Forall_app. split; apply u_escape_printable.
Qed.

Lemma uint_str_digits u : Forall (fun c => is_digit c = true) (uint_str u).
Proof. induction u; simpl; constructor; auto. Qed.

Lemma digit_printable c : is_digit c = true -> printable c.
Proof.
  unfold is_digit, printable. intros H. apply andb_prop in H as [H1 H2].
  apply N.leb_le in H1, H2. ch_values. lia.
Qed.

Lemma join_Forall (P : N -> Prop) sep parts :
  Forall P sep -> Forall (Forall P) parts -> Forall P (join sep parts).
Proof.
  intros Hsep. induction 1 as [|p parts Hp _ IH]; [constructor|].
  destruct parts as [|q parts]; [exact Hp|].
  change (join sep (p :: q :: parts)) with (p ++ sep ++ join sep (q :: parts)).
  apply List.Forall_app. split; [exact Hp|]. apply List.Forall_app. now split.
Qed.

Lemma encode_basestring_printable s : Forall printable (encode_basestring_ascii s).
Proof.
  unfold encode_basestring_ascii. constructor; [unfold printable, QUOTE; lia|].
  apply List.Forall_app. split.
  - induction s as [|c s IH]; [constructor|]. cbn [flat_map].
    apply List.Forall_app. split; [apply escape_char_printable | exact IH].
  - repeat constructor; unfold QUOTE; lia.
Qed.

Lemma dumps_printable v : Forall printable (dumps v).
Proof.
  assert (Hsep : Forall printable (lit ", ")).
  { repeat constructor; vm_compute; discriminate. }
  induction v as [| b | z | s | l IH | d IH] using value_ind'.
  - repeat constructor; vm_compute; discriminate.
  - destruct b; repeat constructor; vm_compute; discriminate.
  - cbn [dumps]. unfold int_repr.
    destruct (Z.to_int z) as [u|u];
      [|constructor; [unfold printable; ch_values; lia|]];
      (eapply List.Forall_impl; [|apply uint_str_digits]);
      intros c Hc; now apply digit_printable.
  - apply encode_basestring_printable.
  - cbn [dumps]. constructor; [unfold printable; ch_values; lia|].
    apply List.Forall_app. split; [|repeat constructor; ch_values; lia].
    apply join_Forall; [exact Hsep|]. apply List.Forall_map. exact IH.
  - cbn [dumps]. constructor; [unfold printable; ch_values; lia|].
    apply List.Forall_app. split; [|repeat constructor; ch_values; lia].
    apply join_Forall; [exact Hsep|]. apply List.Forall_map.
    eapply List.Forall_impl; [|exact IH]. intros [k v] Hv. cbn [fst snd] in *.
    apply List.Forall_app. split; [apply encode_basestring_printable|].
    apply List.Forall_app. split; [|exact Hv].
    repeat constructor; vm_compute; discriminate.
Qed.

(** *** [strip] *)

Lemma printable_space c : printable c -> c <> 32 -> is_space c = false.
Proof.
  unfold printable, is_space. intros [H1 H2] H3.
  rewrite !orb_false_iff, !andb_false_iff, !N.eqb_neq, !N.leb_gt. lia.
Qed.

Lemma dumps_first v :
  exists c r, dumps v = c :: r /\ is_space c = false.
Proof.
  destruct (dumps_head v) as (c & r & E & Hc). exists c, r.
  split; [exact E|]. apply printable_space.
  - pose proof (dumps_printable v) as H. rewrite E in H.
    now apply Forall_cons_iff in H as [H _].
  - apply value_start_cases in Hc. ch_values. lia.
Qed.

Lemma dumps_last v :
  exists r c, dumps v = r ++ [c] /\ is_space c = false.
Proof.
  destruct v as [| [|] | z | s | l | d].
  - exists (lit "nul"), (ch "l"). split; reflexivity.
  - exists (lit "tru"), (ch "e"). split; reflexivity.
  - exists (lit "fals"), (ch "e"). split; reflexivity.
  - destruct (int_repr_head z) as (c0 & r0 & E0 & _).
    assert (Hne : dumps (VInt z) <> []) by (cbn [dumps]; now rewrite E0).
    destruct (exists_last Hne) as (r & c & E). exists r, c.
    split; [exact E|].
    assert (Hin : In c (int_repr z)).
    { cbn [dumps] in E. rewrite E. apply in_or_app. right. now left. }
    unfold int_repr in Hin. pose proof (uint_str_digits) as Hd.
    assert (Hc : is_digit c = true \/ c = ch "-").
    { destruct (Z.to_int z) as [u|u].
      - left. specialize (Hd u). rewrite List.Forall_forall in Hd. now apply Hd.
      - destruct Hin as [<-|Hin]; [now right|]. left.
        specialize (Hd u). rewrite List.Forall_forall in Hd. now apply Hd. }
    destruct Hc as [Hc | ->]; [|reflexivity].
    apply digit_printable in Hc as Hp. apply printable_space; [exact Hp|].
    unfold is_digit in Hc. apply andb_prop in Hc as [Hc _].
    apply N.leb_le in Hc. ch_values. lia.
  - exists (QUOTE :: flat_map escape_char s), QUOTE. split; reflexivity.
  - eexists (ch "[" :: _), (ch "]"). split; reflexivity.
  - eexists (ch "{" :: _), (ch "}"). split; reflexivity.
Qed.

Lemma rstrip_last r c : is_space c = false -> rstrip (r ++ [c]) = r ++ [c].
Proof.
  intros H. unfold rstrip. rewrite rev_unit. cbn [lstrip]. rewrite H.
  change (c :: rev r) with ([c] ++ rev r).
  now rewrite rev_app_distr, rev_involutive.
Qed.

(** Stripping the record gives back the text of [dumps], with or
    without the terminator. *)
Lemma strip_dumps v :
  strip (dumps v ++ [10]) = dumps v /\ strip (dumps v) = dumps v.
Proof.
  destruct (dumps_first v) as (c & r & E & Hc).
  destruct (dumps_last v) as (r' & c' & E' & Hc').
  unfold strip. split.
  - rewrite E. cbn [app lstrip]. rewrite Hc. rewrite <- E.
    change (c :: r ++ [10]) with ((c :: r) ++ [10]). rewrite <- E.
    unfold rstrip. rewrite rev_unit. cbn [lstrip].
    change (is_space 10) with true. cbv iota.
    fold (rstrip (dumps v)). rewrite E'. now apply rstrip_last.
  - rewrite E. cbn [lstrip]. rewrite Hc, <- E, E'. now apply rstrip_last.
Qed.

End WireFacts.

(** Why a well-formed string has no high surrogate right before a low
    one: the two escapes the encoder writes for them are read back as
    one character. *)
Example surrogate_pair_joined :
  Json.loads (Json.dumps (VStr [0xd83d; 0xde00])) = Return (VStr [0x1f600]).
Proof. reflexivity. Qed.

(** C8. A well-formed message (code points in range, no high
    surrogate right before a low one, dictionary keys pairwise
    distinct; numbers are integers) is written as one record, a line of
    printable ASCII ended by the one newline, and decoding that record,
    with or without its terminator, gives the message back. *)
Theorem codec_round_trip (m : value) :
  Json.wf_value m = true ->
  exists record : bytes,
    SimpleMCPClient.encode_message m = Return (record ++ [Byte.x0a])
    /\ ~ In Byte.x0a record
    /\ SimpleMCPClient.decode_response (record ++ [Byte.x0a]) = Return m
    /\ SimpleMCPClient.decode_response record = Return m.
Proof.
  intros Hwf. exists (List.map byte_of_N (Json.dumps m)).
  pose proof (dumps_printable m) as Hp.
  assert (Hascii : Forall (fun c => c < 128) (Json.dumps m)).
  { eapply List.Forall_impl; [|exact Hp]. intros c [_ H]. simpl. lia. }
  assert (Hascii' : Forall (fun c => c < 128) (Json.dumps m ++ [10])).
  { apply List.Forall_app. split; [exact Hascii|]. repeat constructor. }
  destruct (strip_dumps m) as [Hs1 Hs2].
  split; [|split; [|split]].
  - unfold SimpleMCPClient.encode_message.
    rewrite str_encode_ascii by exact Hascii'. now rewrite map_app.
  - intros Hin. apply in_map_iff in Hin as (c & Hc & Hin).
    rewrite List.Forall_forall in Hp. destruct (Hp c Hin) as [Hlo Hhi].
    assert (E : Byte.to_N (byte_of_N c) = c) by (apply to_N_byte_of_N; lia).
    rewrite Hc in E. simpl in E. lia.
  - unfold SimpleMCPClient.decode_response.
    change [Byte.x0a] with (List.map byte_of_N [10]). rewrite <- map_app.
    rewrite bytes_decode_ascii by exact Hascii'. cbn [res_bind].
    rewrite Hs1. now apply loads_dumps.
  - unfold SimpleMCPClient.decode_response.
    rewrite bytes_decode_ascii by exact Hascii. cbn [res_bind].
    rewrite Hs2. now apply loads_dumps.
Qed.

Lemma codec_round_trip_witness :
  exists record : bytes,
    SimpleMCPClient.encode_message
      (SimpleMCPClient.message 1 (lit "tools/call")
         (VDict [ (lit "name", VStr (lit "add_todo"));
                  (lit "arguments",
                   VDict [(lit "title", VStr (lit "Buy groceries"))]) ]))
    = Return (record ++ [Byte.x0a])
    /\ ~ In Byte.x0a record
    /\ SimpleMCPClient.decode_response (record ++ [Byte.x0a])
       = Return (SimpleMCPClient.message 1 (lit "tools/call")
                   (VDict [ (lit "name", VStr (lit "add_todo"));
                            (lit "arguments",
                             VDict [(lit "title",
                                     VStr (lit "Buy groceries"))]) ]))
    /\ SimpleMCPClient.decode_response record
       = Return (SimpleMCPClient.message 1 (lit "tools/call")
                   (VDict [ (lit "name", VStr (lit "add_todo"));
                            (lit "arguments",
                             VDict [(lit "title",
                                     VStr (lit "Buy groceries"))]) ])).
Proof. apply codec_round_trip. vm_compute. reflexivity. Defined.

(* ----------------------------------------------------------------- *)
(** ** The client session *)

Section ClientFacts.
Import SimpleMCPClient.

(** The bytes of the record of a message. *)
Lemma encode_message_total m :
  encode_message m = Return (List.map byte_of_N (Json.dumps m ++ [10%N])).
Proof.
  unfold encode_message. apply str_encode_ascii.
  apply List.Forall_app. split; [|repeat constructor].
  eapply List.Forall_impl; [|apply dumps_printable].
  intros c [_ H]. simpl. lia.
Qed.

(** [send_message], as an equation on the session. *)
Lemma send_message_eq method params line c :
  send_message method params line c =
  (match line with
   | [] => Raise (Exception (lit "No response from server"))
   | _ :: _ => res_bind (decode_response line) check_response
   end,
   {| message_id := message_id c + 1;
      stdin := stdin c ++
               List.map byte_of_N
                 (Json.dumps (message (message_id c + 1) method params)
                  ++ [10%N]) |}).
Proof.
  unfold send_message, bind, _get_next_id, lift, stdin_write, raise, lift.
  cbn [message_id stdin]. rewrite encode_message_total.
  destruct line as [|b line]; [reflexivity|].
  destruct (decode_response (b :: line)) as [r| |]; cbn [res_bind];
    [|reflexivity|reflexivity].
  now destruct (check_response r).
Qed.

(** A request built from well-formed parts is well-formed. *)
Lemma message_wf id method params :
  Json.wf_str method = true -> Json.wf_value params = true ->
  Json.wf_value (message id method params) = true.
Proof.
  intros Hm Hp. unfold message, or_.
  destruct (truthy params);
    change (dict_of_pairs ?l) with l;
    cbn [Json.wf_value List.map fst snd forallb];
    rewrite Hm, ?Hp; reflexivity.
Qed.

Lemma request_id_message id method params :
  request_id (message id method params) = Some id.
Proof. reflexivity. Qed.

(** The records of the requests numbered from [base + start] on. *)
Lemma records_shift (calls : list Call) base start :
  flat_map (fun ik =>
              List.map byte_of_N
                (Json.dumps (message (base + 1 + Z.of_nat (fst ik))
                               (call_method (snd ik)) (call_params (snd ik)))
                 ++ [10%N]))
    (combine (seq start (length calls)) calls)
  = flat_map (fun ik =>
                List.map byte_of_N
                  (Json.dumps (message (base + Z.of_nat (fst ik))
                                 (call_method (snd ik)) (call_params (snd ik)))
                   ++ [10%N]))
      (combine (seq (S start) (length calls)) calls).
Proof.
  revert start. induction calls as [|k calls IH]; intros start;
    [reflexivity|].
  cbn [length seq combine flat_map fst snd]. rewrite IH.
  replace (base + 1 + Z.of_nat start)%Z with (base + Z.of_nat (S start))%Z
    by lia.
  reflexivity.
Qed.

Lemma run_calls_from (calls : list Call) c :
  run_calls calls c =
  (List.map (fun k =>
               match call_response_line k with
               | [] => Raise (Exception (lit "No response from server"))
               | _ :: _ =>
                   res_bind (decode_response (call_response_line k))
                     check_response
               end) calls,
   {| message_id := message_id c + Z.of_nat (length calls);
      stdin := stdin c ++
        flat_map (fun ik =>
                    List.map byte_of_N
                      (Json.dumps (message (message_id c + Z.of_nat (fst ik))
                                     (call_method (snd ik))
                                     (call_params (snd ik)))
                       ++ [10%N]))
          (combine (seq 1 (length calls)) calls) |}).
Proof.
  revert c. induction calls as [|k calls IH]; intros c.
  - cbn [run_calls length List.map seq combine flat_map].
    rewrite Z.add_0_r, app_nil_r. now destruct c.
  - cbn [run_calls]. rewrite send_message_eq, IH.
    cbn [message_id stdin length List.map seq combine flat_map fst snd].
    rewrite records_shift, <- app_assoc.
    replace (message_id c + 1 + Z.of_nat (length calls))%Z
      with (message_id c + Z.of_nat (S (length calls)))%Z by lia.
    reflexivity.
Qed.

End ClientFacts.

(** C2. On a new session, whatever the calls and whatever the server
    answers, the k-th record written to the server is the encoding of
    the request whose [id] is k: the ids on the wire are 1, 2, 3, ...
    in call order, and the counter ends at the number of calls. *)
Theorem request_ids_count_up (calls : list SimpleMCPClient.Call) :
  let msgs :=
    List.map (fun ik =>
                SimpleMCPClient.message (Z.of_nat (fst ik))
                  (SimpleMCPClient.call_method (snd ik))
                  (SimpleMCPClient.call_params (snd ik)))
      (combine (seq 1 (length calls)) calls) in
  let c := snd (SimpleMCPClient.run_calls calls SimpleMCPClient.__init__) in
  SimpleMCPClient.stdin c =
    flat_map (fun m => List.map byte_of_N (Json.dumps m ++ [10%N])) msgs
  /\ Forall (fun m => SimpleMCPClient.encode_message m =
                      Return (List.map byte_of_N (Json.dumps m ++ [10%N])))
       msgs
  /\ length msgs = length calls
  /\ List.map SimpleMCPClient.request_id msgs =
     List.map (fun i => Some (Z.of_nat i)) (seq 1 (length calls))
  /\ SimpleMCPClient.message_id c = Z.of_nat (length calls).
Proof.
  intros msgs c. unfold c, msgs. rewrite run_calls_from.
  cbn [snd SimpleMCPClient.stdin SimpleMCPClient.message_id
       SimpleMCPClient.__init__ app].
  repeat split.
  - rewrite (flat_map_concat_map _ (List.map _ _)), List.map_map,
      <- flat_map_concat_map.
    apply flat_map_ext. intros [i k]. reflexivity.
  - apply List.Forall_forall. intros m _. apply encode_message_total.
  - rewrite length_map, length_combine, length_seq. lia.
  - rewrite List.map_map. generalize 1%nat.
    induction calls as [|k calls IH]; intros start; [reflexivity|].
    cbn [length seq combine List.map fst snd]. now rewrite IH.
Qed.

(** C3. On a decoded response object, the call raises the
    [Exception] made from the value of the [error] field exactly when
    the object has an [error] field, and otherwise returns the value of
    the [result] field, or [{}] when there is none; and this is what
    [send_message] does with the line it reads. *)
Theorem error_response_raises (d : list (str * value)) :
  (forall payload,
     dict_get (lit "error") d = Some payload ->
     SimpleMCPClient.check_response (VDict d) = Raise (ServerError payload))
  /\ (dict_get (lit "error") d = None ->
        SimpleMCPClient.check_response (VDict d) =
        Return (match dict_get (lit "result") d with
                | Some r => r
                | None => VDict []
                end))
  /\ ((exists e, SimpleMCPClient.check_response (VDict d) = Raise e)
      <-> dict_contains (lit "error") d = true)
  /\ (forall c method params b line,
        SimpleMCPClient.decode_response (b :: line) = Return (VDict d) ->
        fst (SimpleMCPClient.send_message method params (b :: line) c) =
        SimpleMCPClient.check_response (VDict d)).
Proof.
  unfold SimpleMCPClient.check_response, SimpleMCPClient.error_in,
    SimpleMCPClient.error_of, SimpleMCPClient.result_of, dict_contains.
  cbn [res_bind]. repeat split.
  - intros payload ->. reflexivity.
  - intros ->. now destruct (dict_get (lit "result") d).
  - intros [e He]. destruct (dict_get (lit "error") d); [reflexivity|].
    now destruct (dict_get (lit "result") d).
  - intros H. destruct (dict_get (lit "error") d) as [payload|];
      [eauto | discriminate].
  - intros c method params b line Hdec.
    rewrite send_message_eq. cbn [fst]. now rewrite Hdec.
Qed.

Lemma error_response_raises_witness :
  SimpleMCPClient.check_response
    (VDict [ (lit "jsonrpc", VStr (lit "2.0")); (lit "id", VInt 1);
             (lit "error", VDict [(lit "message", VStr (lit "Unknown tool"))]) ])
  = Raise (ServerError (VDict [(lit "message", VStr (lit "Unknown tool"))]))
  /\ SimpleMCPClient.check_response
       (VDict [ (lit "jsonrpc", VStr (lit "2.0")); (lit "id", VInt 1);
                (lit "result", VDict [(lit "content", VList [])]) ])
     = Return (VDict [(lit "content", VList [])]).
Proof.
  split.
  - apply (proj1 (error_response_raises _)). reflexivity.
  - exact (proj1 (proj2 (error_response_raises
             [ (lit "jsonrpc", VStr (lit "2.0")); (lit "id", VInt 1);
               (lit "result", VDict [(lit "content", VList [])]) ]))
             eq_refl).
Defined.

(** C1, as the code has it. The session never compares the [id] of
    the response with the [id] of the request: when the line read
    decodes to an object, the call ends as the [error] and [result]
    fields of that object say, whatever [id] the object carries, and
    two objects that differ in their [id] only end the call alike. *)
Theorem response_id_not_checked (d : list (str * value)) :
  (forall c method params b line,
     SimpleMCPClient.decode_response (b :: line) = Return (VDict d) ->
     fst (SimpleMCPClient.send_message method params (b :: line) c) =
     match dict_get (lit "error") d with
     | Some payload => Raise (ServerError payload)
     | None => Return (match dict_get (lit "result") d with
                       | Some r => r
                       | None => VDict []
                       end)
     end)
  /\ (forall d' : list (str * value),
        (forall k, k <> lit "id" -> dict_get k d' = dict_get k d) ->
        SimpleMCPClient.check_response (VDict d') =
        SimpleMCPClient.check_response (VDict d)).
Proof.
  split.
  - intros c method params b line Hdec.
    rewrite send_message_eq. cbn [fst]. rewrite Hdec. cbn [res_bind].
    unfold SimpleMCPClient.check_response, SimpleMCPClient.error_in,
      SimpleMCPClient.error_of, SimpleMCPClient.result_of, dict_contains.
    cbn [res_bind].
    destruct (dict_get (lit "error") d); [reflexivity|].
    now destruct (dict_get (lit "result") d).
  - intros d' Hsame.
    unfold SimpleMCPClient.check_response, SimpleMCPClient.error_in,
      SimpleMCPClient.error_of, SimpleMCPClient.result_of, dict_contains.
    now rewrite !Hsame by discriminate.
Qed.

Lemma response_id_not_checked_witness :
  fst (SimpleMCPClient.send_message (lit "tools/call") VNone
         (List.map byte_of_N
            (Json.dumps (VDict [ (lit "jsonrpc", VStr (lit "2.0"));
                                 (lit "id", VInt 99);
                                 (lit "result", VInt 7) ]) ++ [10%N]))
         SimpleMCPClient.__init__)
  = Return (VInt 7).
Proof.
  refine (proj1 (response_id_not_checked
                   [ (lit "jsonrpc", VStr (lit "2.0"));
                     (lit "id", VInt 99);
                     (lit "result", VInt 7) ]) _ _ _ _ _ _).
  vm_compute. reflexivity.
Defined.

(** C1, as the claim has it, fails: the first request of a session
    carries id 1, the server answers with id 99, and the call returns
    the result of that answer. *)
Lemma response_id_mismatch_returns :
  let response :=
    VDict [ (lit "jsonrpc", VStr (lit "2.0")); (lit "id", VInt 99);
            (lit "result", VDict [(lit "ok", VBool true)]) ] in
  let response_line := List.map byte_of_N (Json.dumps response ++ [10%N]) in
  let '(outcome, c) :=
    SimpleMCPClient.send_message (lit "tools/call") VNone response_line
      SimpleMCPClient.__init__ in
  SimpleMCPClient.decode_response response_line = Return response
  /\ SimpleMCPClient.request_id response = Some 99%Z
  /\ SimpleMCPClient.request_id
       (SimpleMCPClient.message (SimpleMCPClient.message_id c)
          (lit "tools/call") VNone) = Some 1%Z
  /\ SimpleMCPClient.decode_response (SimpleMCPClient.stdin c) =
     Return (SimpleMCPClient.message 1 (lit "tools/call") VNone)
  /\ outcome = Return (VDict [(lit "ok", VBool true)])
  /\ ~ (exists e, outcome = Raise e).
Proof.
  vm_compute. repeat split. intros [e He]. discriminate.
Qed.

(* ----------------------------------------------------------------- *)
(** ** The to-do store *)

Section StoreFacts.
Import McpServer.
Implicit Types (s : list (str * Todo)) (t : Todo).

Lemma todo_view_items todo_id t :
  todo_view todo_id t =
  VDict [ (lit "id", VStr todo_id);
          (lit "title", VStr (title t));
          (lit "completed", VBool (completed t));
          (lit "created_at", VStr (created_at t)) ].
Proof. reflexivity. Qed.

(** The handlers, as equations on the store. *)
Lemma add_todo_eq uuid now ttl s :
  add_todo uuid now ttl s =
  (Return (lit "Todo '" ++ ttl ++ lit "' added with ID " ++ uuid),
   dict_setitem uuid (mkTodo ttl false now) s).
Proof. reflexivity. Qed.

Lemma complete_todo_eq todo_id s :
  complete_todo todo_id s =
  match dict_get todo_id s with
  | None => (Return (lit "Todo not found."), s)
  | Some t =>
      if completed t then (Return (lit "Todo already completed."), s)
      else (Return (lit "Todo '" ++ title t ++ lit "' marked as completed."),
            dict_setitem todo_id (mkTodo (title t) true (created_at t)) s)
  end.
Proof.
  unfold complete_todo, bind, todos_get, todos_setitem, ret.
  destruct (dict_get todo_id s) as [t|]; [|reflexivity].
  destruct (completed t); reflexivity.
Qed.

Lemma delete_todo_eq todo_id s :
  delete_todo todo_id s =
  match dict_get todo_id s with
  | None => (Return (lit "Todo not found."), s)
  | Some t =>
      match dict_delitem todo_id s with
      | Some s' => (Return (lit "Todo '" ++ title t ++ lit "' deleted."), s')
      | None => (Raise (KeyError todo_id), s)
      end
  end.
Proof.
  unfold delete_todo, bind, todos_contains, todos_getitem, todos_delitem,
    ret, dict_contains.
  destruct (dict_get todo_id s) as [t|] eqn:E; [|reflexivity].
  cbn iota. rewrite E.
  destruct (dict_delitem todo_id s); reflexivity.
Qed.

Lemma list_todos_eq s :
  list_todos s =
  (Return (VList (List.map (fun kv => todo_view (fst kv) (snd kv)) s)), s).
Proof.
  unfold list_todos, bind, todos_items, ret. do 3 f_equal.
  apply List.map_ext. now intros [k t].
Qed.

Lemma get_todo_eq todo_id s :
  get_todo todo_id s =
  match dict_get todo_id s with
  | None => (Return (VDict [(lit "error", VStr (lit "Todo not found"))]), s)
  | Some t => (Return (todo_view todo_id t), s)
  end.
Proof.
  unfold get_todo, bind, todos_get, ret.
  destruct (dict_get todo_id s); reflexivity.
Qed.

Lemma filter_out_keys_NoDup (k : str) s :
  List.NoDup (dict_keys s) ->
  List.NoDup
    (dict_keys (List.filter (fun kv => negb (str_eqb k (fst kv))) s)).
Proof.
  unfold dict_keys. induction s as [|[k0 v] s IH]; simpl; intros Hnd;
    [constructor|].
  apply NoDup_cons_iff in Hnd as [Hnotin Hnd].
  destruct (str_eqb k k0); simpl; [now apply IH|].
  constructor; [|now apply IH].
  intros Hin. apply Hnotin. apply in_map_iff in Hin as [[k1 v1] [Hk Hin]].
  apply filter_In in Hin as [Hin _]. simpl in Hk. subst k1.
  change k0 with (fst (k0, v1)). now apply in_map.
Qed.

(** The store stays a dictionary under every operation. *)
Lemma exec_keeps_NoDup op s :
  List.NoDup (dict_keys s) -> List.NoDup (dict_keys (exec op s)).
Proof.
  intros Hnd. destruct op; unfold exec.
  - rewrite add_todo_eq. simpl.
    destruct (dict_get uuid s) eqn:E.
    + rewrite dict_setitem_keys_present; [assumption | congruence].
    + rewrite dict_setitem_fresh by assumption.
      unfold dict_keys. rewrite map_app. simpl.
      apply dict_get_None_keys in E.
      apply List.NoDup_app; [assumption | repeat constructor; simpl; tauto |].
      intros a Ha [<-|[]]. now apply E.
  - rewrite complete_todo_eq.
    destruct (dict_get todo_id s) as [t|] eqn:E; [|assumption].
    destruct (completed t); simpl; [assumption|].
    rewrite dict_setitem_keys_present; [assumption | congruence].
  - rewrite delete_todo_eq.
    destruct (dict_get todo_id s) as [t|] eqn:E; simpl; [|assumption].
    rewrite (dict_delitem_present _ _ _ E Hnd). simpl.
    now apply filter_out_keys_NoDup.
  - now rewrite list_todos_eq.
  - rewrite get_todo_eq. now destruct (dict_get todo_id s).
  - assumption.
Qed.

End StoreFacts.

(** ** Sequences of insertions *)

Section InsertFacts.
Context {V : Type}.
Implicit Types (d p : list (str * V)) (k : str) (v : V).






End InsertFacts.

Section AddFacts.
Import McpServer.


End AddFacts.







(** C6. [delete_todo] on a stored id removes exactly the item of that
    id and reports its title; afterwards [get_todo] on it gives the
    not-found payload, [list_todos] shows the other items in their
    previous order and the id is no longer a key, every other lookup
    being unchanged. On an unknown id it returns "Todo not found."
    normally and leaves the store as it was. *)
Theorem delete_todo_spec (s : list (str * McpServer.Todo)) (todo_id : str) :
  List.NoDup (dict_keys s) ->
  (forall t, dict_get todo_id s = Some t ->
     let s' := List.filter (fun kv => negb (str_eqb todo_id (fst kv))) s in
     McpServer.delete_todo todo_id s =
       (Return (lit "Todo '" ++ McpServer.title t ++ lit "' deleted."), s')
     /\ McpServer.get_todo todo_id s' =
          (Return (VDict [(lit "error", VStr (lit "Todo not found"))]), s')
     /\ McpServer.list_todos s' =
          (Return (VList (List.map
             (fun kv => McpServer.todo_view (fst kv) (snd kv))
             (List.filter (fun kv => negb (str_eqb todo_id (fst kv))) s))), s')
     /\ ~ In todo_id (dict_keys s')
     /\ (forall k, k <> todo_id -> dict_get k s' = dict_get k s))
  /\ (dict_get todo_id s = None ->
        McpServer.delete_todo todo_id s = (Return (lit "Todo not found."), s)).
Proof.
  intros Hnd. split.
  - intros t Ht s'. repeat split.
    + rewrite delete_todo_eq, Ht.
      now rewrite (dict_delitem_present _ _ _ Ht Hnd).
    + rewrite get_todo_eq. unfold s'. now rewrite dict_get_filter_out.
    + now rewrite list_todos_eq.
    + apply dict_get_None_keys, dict_get_filter_out.
    + intros k Hk. now apply dict_get_filter_other.
  - intros Hn. now rewrite delete_todo_eq, Hn.
Qed.

Lemma delete_todo_spec_witness :
  let s := [ (lit "u1", McpServer.mkTodo (lit "Buy groceries") true (lit "t1"));
             (lit "u2", McpServer.mkTodo (lit "Walk the dog") false (lit "t2"));
             (lit "u3", McpServer.mkTodo (lit "Finish project") false (lit "t3")) ] in
  McpServer.delete_todo (lit "u2") s =
    (Return (lit "Todo 'Walk the dog' deleted."),
     [ (lit "u1", McpServer.mkTodo (lit "Buy groceries") true (lit "t1"));
       (lit "u3", McpServer.mkTodo (lit "Finish project") false (lit "t3")) ])
  /\ McpServer.delete_todo (lit "not-a-real-id") s =
       (Return (lit "Todo not found."), s).
Proof.
  intros s.
  assert (Hnd : List.NoDup (dict_keys s)).
  { repeat constructor; simpl; intuition discriminate. }
  split.
  - destruct (delete_todo_spec s (lit "u2") Hnd) as (H & _).
    destruct (H (McpServer.mkTodo (lit "Walk the dog") false (lit "t2")))
      as (E & _); [reflexivity | exact E].
  - destruct (delete_todo_spec s (lit "not-a-real-id") Hnd) as (_ & H).
    apply H. reflexivity.
Defined.

(** C7. [get_todo] on an id that is not stored returns, as an ordinary
    return value, the dictionary [{"error": "Todo not found"}]; it does
    not raise. On a stored id it returns the stored fields preceded by
    the id. *)
Theorem get_todo_spec (s : list (str * McpServer.Todo)) (todo_id : str) :
  (dict_get todo_id s = None ->
     McpServer.get_todo todo_id s =
       (Return (VDict [(lit "error", VStr (lit "Todo not found"))]), s))
  /\ (forall t, dict_get todo_id s = Some t ->
        McpServer.get_todo todo_id s =
          (Return (VDict [ (lit "id", VStr todo_id);
                           (lit "title", VStr (McpServer.title t));
                           (lit "completed", VBool (McpServer.completed t));
                           (lit "created_at", VStr (McpServer.created_at t)) ]),
           s)).
Proof.
  split.
  - intros Hn. now rewrite get_todo_eq, Hn.
  - intros t Ht. now rewrite get_todo_eq, Ht.
Qed.

Lemma get_todo_spec_witness :
  let s := [ (lit "u1", McpServer.mkTodo (lit "Buy groceries") true (lit "t1")) ] in
  McpServer.get_todo (lit "not-a-real-id") s =
    (Return (VDict [(lit "error", VStr (lit "Todo not found"))]), s)
  /\ McpServer.get_todo (lit "u1") s =
       (Return (VDict [ (lit "id", VStr (lit "u1"));
                        (lit "title", VStr (lit "Buy groceries"));
                        (lit "completed", VBool true);
                        (lit "created_at", VStr (lit "t1")) ]), s).
Proof.
  intros s. split.
  - apply (proj1 (get_todo_spec s (lit "not-a-real-id"))). reflexivity.
  - apply (proj2 (get_todo_spec s (lit "u1"))
             (McpServer.mkTodo (lit "Buy groceries") true (lit "t1"))).
    reflexivity.
Defined.

(** The walk through the store: two todos added, the first completed,
    the second deleted; [list_todos] is then left with the completed
    first one. *)
Example store_scenario :
  let s1 := McpServer.exec
              (McpServer.OpAdd (lit "u1") (lit "t1") (lit "Buy groceries")) [] in
  let s2 := McpServer.exec
              (McpServer.OpAdd (lit "u2") (lit "t2") (lit "Walk the dog")) s1 in
  let s3 := McpServer.exec (McpServer.OpComplete (lit "u1")) s2 in
  let s4 := McpServer.exec (McpServer.OpDelete (lit "u2")) s3 in
  fst (McpServer.list_todos s4) =
  Return (VList [ VDict [ (lit "id", VStr (lit "u1"));
                          (lit "title", VStr (lit "Buy groceries"));
                          (lit "completed", VBool true);
                          (lit "created_at", VStr (lit "t1")) ] ]).
Proof. reflexivity. Qed.

(** C10. The resource handlers [list_todos], [get_todo] and [greet]
    return normally and leave the store exactly as they found it. *)
Theorem resources_read_only (s : list (str * McpServer.Todo)) (arg : str) :
  (exists v, McpServer.list_todos s = (Return v, s))
  /\ (exists v, McpServer.get_todo arg s = (Return v, s))
  /\ (exists v, McpServer.greet arg s = (Return v, s)).
Proof.
  split; [|split].
  - rewrite list_todos_eq. eauto.
  - rewrite get_todo_eq. destruct (dict_get arg s); eauto.
  - unfold McpServer.greet, McpServer.ret. eauto.
Qed.

(* ----------------------------------------------------------------- *)
(** ** The [debug_error] prompt *)

(** C9. [debug_error] returns three elements, each a set of strings.
    A set does not tell the role from the content: the display of
    (role, content) is the display of (content, role), so the second
    element is the same whether "user" says [error] or [error] says
    "user"; and for [error = "user"] it is the one-element set
    [{"user"}]. *)
Theorem debug_error_sets (error : str) :
  length (BasicServer.debug_error error) = 3%nat
  /\ (forall role content : str,
        BasicServer.set_display role content =
        BasicServer.set_display content role)
  /\ BasicServer.debug_error error !! 1%nat =
       Some (BasicServer.set_display error (lit "user"))
  /\ BasicServer.debug_error (lit "user") !! 1%nat = Some {[ lit "user" ]}
  /\ option_map size (BasicServer.debug_error (lit "user") !! 1%nat)
     = Some 1%nat.
Proof.
  assert (Hswap : forall role content : str,
             BasicServer.set_display role content =
             BasicServer.set_display content role).
  { intros role content. unfold BasicServer.set_display.
    apply (comm_L (∪)). }
  assert (Hone : BasicServer.set_display (lit "user") (lit "user")
                 = {[ lit "user" ]}).
  { unfold BasicServer.set_display. apply (idemp_L (∪)). }
  split; [reflexivity|]. split; [exact Hswap|]. split; [|split].
  - simpl. now rewrite (Hswap error).
  - simpl. now rewrite Hone.
  - change (BasicServer.debug_error (lit "user") !! 1%nat)
      with (Some (BasicServer.set_display (lit "user") (lit "user"))).
    cbn [option_map]. now rewrite Hone, size_singleton.
Qed.


(* ================================================================= *)
(** * Part III: further properties of the code *)
(* ================================================================= *)

(** ** The to-do store, continued *)

Section MoreDictFacts.
Context {V : Type}.
Implicit Types (d : list (str * V)) (k : str) (v : V).

(** [del d[k]] succeeds exactly when [k in d]. *)
Lemma dict_delitem_without k d :
  dict_delitem k d =
  match dict_get k d with
  | Some _ => Some (dict_without k d)
  | None => None
  end.
Proof.
  induction d as [|[k' v'] d IH]; simpl; [reflexivity|].
  destruct (str_eqb k k'); [reflexivity|].
  rewrite IH. now destruct (dict_get k d).
Qed.

Lemma dict_without_absent k d : dict_get k d = None -> dict_without k d = d.
Proof.
  induction d as [|[k' v'] d IH]; simpl; [reflexivity|].
  destruct (str_eqb k k'); [discriminate|].
  intros H. now rewrite IH.
Qed.

Lemma dict_get_without_ne k k' d :
  k' <> k -> dict_get k' (dict_without k d) = dict_get k' d.
Proof.
  intros Hne. induction d as [|[k0 v0] d IH]; simpl; [reflexivity|].
  destruct (str_eqb k k0) eqn:E; simpl.
  - apply str_eqb_eq in E. subst k0.
    apply str_eqb_neq in Hne. now rewrite Hne.
  - now rewrite IH.
Qed.

Lemma dict_get_without_eq k d :
  List.NoDup (dict_keys d) -> dict_get k (dict_without k d) = None.
Proof.
  induction d as [|[k0 v0] d IH]; simpl; intros Hnd; [reflexivity|].
  apply NoDup_cons_iff in Hnd as [Hnotin Hnd].
  destruct (str_eqb k k0) eqn:E; simpl.
  - apply str_eqb_eq in E. subst k0. now apply dict_get_None_keys.
  - rewrite E. now apply IH.
Qed.

(** Appending an item and dropping its key again. *)
Lemma dict_without_last k v d :
  dict_get k d = None -> dict_without k (d ++ [(k, v)]) = d.
Proof.
  induction d as [|[k' v'] d IH]; simpl.
  - now rewrite str_eqb_refl.
  - destruct (str_eqb k k'); [discriminate|].
    intros H. now rewrite IH.
Qed.

Lemma dict_without_without a b d :
  dict_without a (dict_without b d) = dict_without b (dict_without a d)
  \/ a = b.
Proof.
  destruct (str_eqb a b) eqn:Eab; [right; now apply str_eqb_eq|left].
  induction d as [|[k v] d IH]; simpl; [reflexivity|].
  destruct (str_eqb a k) eqn:Ea, (str_eqb b k) eqn:Eb; simpl;
    rewrite ?Ea, ?Eb; try reflexivity.
  - apply str_eqb_eq in Ea, Eb. subst. now rewrite str_eqb_refl in Eab.
  - now rewrite IH.
Qed.

Lemma dict_setitem_setitem_ne a b x y d :
  a <> b -> dict_get a d <> None -> dict_get b d <> None ->
  dict_setitem a x (dict_setitem b y d) = dict_setitem b y (dict_setitem a x d).
Proof.
  intros Hne. induction d as [|[k v] d IH]; simpl; [congruence|].
  destruct (str_eqb a k) eqn:Ea, (str_eqb b k) eqn:Eb; simpl;
    rewrite ?Ea, ?Eb; intros Ha Hb; try reflexivity.
  - apply str_eqb_eq in Ea, Eb. congruence.
  - now rewrite IH.
Qed.

Lemma dict_without_setitem_ne a b x d :
  a <> b -> dict_get a d <> None ->
  dict_without b (dict_setitem a x d) = dict_setitem a x (dict_without b d).
Proof.
  intros Hne. induction d as [|[k v] d IH]; simpl; [congruence|].
  destruct (str_eqb a k) eqn:Ea, (str_eqb b k) eqn:Eb; simpl;
    rewrite ?Ea, ?Eb; intros Ha; try reflexivity.
  - apply str_eqb_eq in Ea, Eb. congruence.
  - now rewrite IH.
Qed.

Lemma dict_get_setitem k k' v d :
  dict_get k' (dict_setitem k v d) =
  if str_eqb k' k then Some v else dict_get k' d.
Proof.
  destruct (str_eqb k' k) eqn:E.
  - apply str_eqb_eq in E. subst. apply dict_get_setitem_eq.
  - apply str_eqb_neq in E. now apply dict_get_setitem_ne.
Qed.

Lemma dict_without_filter k d :
  List.NoDup (dict_keys d) ->
  dict_without k d = List.filter (fun kv => negb (str_eqb k (fst kv))) d.
Proof.
  intros Hnd. destruct (dict_get k d) as [v|] eqn:E.
  - pose proof (dict_delitem_present k v d E Hnd) as H.
    rewrite dict_delitem_without, E in H. now injection H.
  - rewrite dict_without_absent by assumption.
    symmetry. apply forallb_filter_id, forallb_forall.
    intros [k1 v1] Hin. simpl. apply negb_true_iff, str_eqb_neq. intros ->.
    apply dict_get_None_keys in E. apply E. unfold dict_keys.
    change k1 with (fst (k1, v1)). now apply in_map.
Qed.

Lemma dict_setitem_id k v d : dict_get k d = Some v -> dict_setitem k v d = d.
Proof.
  induction d as [|[k' v'] d IH]; simpl; [discriminate|].
  destruct (str_eqb k k').
  - now intros [= ->].
  - intros H. now rewrite IH.
Qed.

End MoreDictFacts.

Section MoreStoreFacts.
Import McpServer.
Implicit Types (s : list (str * Todo)) (t : Todo).

(** [delete_todo], with [del] resolved. *)
Lemma delete_todo_without todo_id s :
  delete_todo todo_id s =
  match dict_get todo_id s with
  | None => (Return (lit "Todo not found."), s)
  | Some t => (Return (lit "Todo '" ++ title t ++ lit "' deleted."),
               dict_without todo_id s)
  end.
Proof.
  rewrite delete_todo_eq, dict_delitem_without.
  now destruct (dict_get todo_id s).
Qed.

Lemma exec_delete todo_id s :
  exec (OpDelete todo_id) s = dict_without todo_id s.
Proof.
  unfold exec. rewrite delete_todo_without.
  destruct (dict_get todo_id s) eqn:E; [reflexivity|].
  simpl. symmetry. now apply dict_without_absent.
Qed.

Lemma exec_complete todo_id s :
  exec (OpComplete todo_id) s =
  match dict_get todo_id s with
  | Some t => dict_setitem todo_id (mkTodo (title t) true (created_at t)) s
  | None => s
  end.
Proof.
  unfold exec. rewrite complete_todo_eq.
  destruct (dict_get todo_id s) as [t|] eqn:E; [|reflexivity].
  destruct (completed t) eqn:Ec; [|reflexivity].
  simpl. symmetry. apply dict_setitem_id.
  rewrite E. destruct t as [ti c cr]. simpl in *. now subst c.
Qed.

Lemma exec_add uuid now ttl s :
  exec (OpAdd uuid now ttl) s = dict_setitem uuid (mkTodo ttl false now) s.
Proof. reflexivity. Qed.

Lemma exec_reads s :
  exec OpList s = s /\ (forall k, exec (OpGet k) s = s)
  /\ (forall n, exec (OpGreet n) s = s).
Proof.
  unfold exec. rewrite list_todos_eq. repeat split.
  intros k. rewrite get_todo_eq. now destruct (dict_get k s).
Qed.

End MoreStoreFacts.

(** X1. No handler of the server raises: on every store and for every
    argument each of the six returns normally. For [delete_todo] this
    says that the lookup [todos[todo_id]] and the [del] behind the
    membership test never meet a missing key. *)
Theorem handlers_return_normally
    (s : list (str * McpServer.Todo)) (uuid now title todo_id name : str) :
  (exists r s', McpServer.add_todo uuid now title s = (Return r, s'))
  /\ (exists r s', McpServer.complete_todo todo_id s = (Return r, s'))
  /\ (exists r s', McpServer.delete_todo todo_id s = (Return r, s'))
  /\ (exists r s', McpServer.list_todos s = (Return r, s'))
  /\ (exists r s', McpServer.get_todo todo_id s = (Return r, s'))
  /\ (exists r s', McpServer.greet name s = (Return r, s')).
Proof.
  repeat split.
  - rewrite add_todo_eq. eauto.
  - rewrite complete_todo_eq. destruct (dict_get todo_id s) as [t|]; [|eauto].
    destruct (McpServer.completed t); eauto.
  - rewrite delete_todo_without. destruct (dict_get todo_id s); eauto.
  - rewrite list_todos_eq. eauto.
  - rewrite get_todo_eq. destruct (dict_get todo_id s); eauto.
  - unfold McpServer.greet, McpServer.ret. eauto.
Qed.

(** X2. A stored todo keeps its title and its timestamp for as long as
    it is stored: after any operation (an [add_todo] drawing an id that
    is not in the store) it is gone exactly when the operation is
    [delete_todo] on its id, and otherwise it is stored with the same
    title and timestamp, its flag changed only by [complete_todo] on
    its id, from false to true. *)
Theorem todo_title_and_date_kept
    (op : McpServer.Op) (s : list (str * McpServer.Todo)) (todo_id : str)
    (t : McpServer.Todo) :
  List.NoDup (dict_keys s) ->
  dict_get todo_id s = Some t ->
  (forall uuid now ttl, op = McpServer.OpAdd uuid now ttl ->
                        dict_get uuid s = None) ->
  (op = McpServer.OpDelete todo_id
   /\ dict_get todo_id (McpServer.exec op s) = None)
  \/ (op <> McpServer.OpDelete todo_id
      /\ exists t', dict_get todo_id (McpServer.exec op s) = Some t'
         /\ McpServer.title t' = McpServer.title t
         /\ McpServer.created_at t' = McpServer.created_at t
         /\ (McpServer.completed t' = McpServer.completed t
             \/ (op = McpServer.OpComplete todo_id
                 /\ McpServer.completed t = false
                 /\ McpServer.completed t' = true))).
Proof.
  intros Hnd Ht Hfresh.
  destruct op as [uuid now ttl | k | k | | k | n].
  - right. split; [discriminate|]. exists t. rewrite exec_add.
    rewrite dict_get_setitem_ne; [tauto|].
    intros ->. rewrite (Hfresh _ _ _ eq_refl) in Ht. discriminate.
  - right. split; [discriminate|]. rewrite exec_complete.
    destruct (str_eqb todo_id k) eqn:E.
    + apply str_eqb_eq in E. subst k. rewrite Ht, dict_get_setitem_eq.
      eexists. split; [reflexivity|]. cbn.
      destruct (McpServer.completed t) eqn:Ec; tauto.
    + apply str_eqb_neq in E.
      destruct (dict_get k s); [rewrite dict_get_setitem_ne by assumption|];
        exists t; tauto.
  - rewrite exec_delete. destruct (str_eqb todo_id k) eqn:E.
    + apply str_eqb_eq in E. subst k. left.
      split; [reflexivity | now apply dict_get_without_eq].
    + apply str_eqb_neq in E. right. split; [congruence|].
      exists t. rewrite dict_get_without_ne by assumption. tauto.
  - right. split; [discriminate|]. exists t.
    rewrite (proj1 (exec_reads s)). tauto.
  - right. split; [discriminate|]. exists t.
    rewrite (proj1 (proj2 (exec_reads s))). tauto.
  - right. split; [discriminate|]. exists t.
    rewrite (proj2 (proj2 (exec_reads s))). tauto.
Qed.

Lemma todo_title_and_date_kept_witness :
  exists t',
    dict_get (lit "u1")
      (McpServer.exec (McpServer.OpComplete (lit "u1"))
         [ (lit "u1", McpServer.mkTodo (lit "Buy groceries") false (lit "t1"));
           (lit "u2", McpServer.mkTodo (lit "Walk the dog") false (lit "t2")) ])
    = Some t'
    /\ McpServer.title t' = lit "Buy groceries"
    /\ McpServer.created_at t' = lit "t1".
Proof.
  destruct (todo_title_and_date_kept (McpServer.OpComplete (lit "u1"))
              [ (lit "u1", McpServer.mkTodo (lit "Buy groceries") false (lit "t1"));
                (lit "u2", McpServer.mkTodo (lit "Walk the dog") false (lit "t2")) ]
              (lit "u1")
              (McpServer.mkTodo (lit "Buy groceries") false (lit "t1")))
    as [[H _] | [_ (t' & H1 & H2 & H3 & _)]].
  - repeat constructor; simpl; intuition discriminate.
  - reflexivity.
  - discriminate.
  - discriminate H.
  - exists t'. auto.
Defined.

(** X3. Whatever operations the server has run since it started, no id
    is stored twice, and [list_todos] shows one entry per stored id, in
    the order of the store. *)
Theorem reachable_store_ids_distinct (ops : list McpServer.Op) :
  let s := fold_left (fun s op => McpServer.exec op s) ops [] in
  List.NoDup (dict_keys s)
  /\ exists entries,
       McpServer.list_todos s = (Return (VList entries), s)
       /\ List.map (fun e => match e with
                             | VDict d => dict_get (lit "id") d
                             | _ => None
                             end) entries
          = List.map (fun k => Some (VStr k)) (dict_keys s).
Proof.
  intros s. split.
  - unfold s. assert (H : List.NoDup (dict_keys (@nil (str * McpServer.Todo))))
      by constructor.
    revert H. generalize (@nil (str * McpServer.Todo)).
    induction ops as [|op ops IH]; intros s0 H; [exact H|].
    simpl. apply IH. now apply exec_keeps_NoDup.
  - eexists. split; [apply list_todos_eq|].
    unfold dict_keys. rewrite !List.map_map. apply List.map_ext.
    intros [k t]. reflexivity.
Qed.

(** X4. What [add_todo] stores can be read back: right after
    [add_todo] has drawn the id [uuid], [get_todo(uuid)] returns the
    new todo, with the title given, the timestamp drawn and
    [completed] false, and [get_todo] on any other id returns what it
    returned before. *)
Theorem add_then_get
    (s : list (str * McpServer.Todo)) (uuid now title : str) :
  let s' := McpServer.exec (McpServer.OpAdd uuid now title) s in
  fst (McpServer.get_todo uuid s') =
    Return (VDict [ (lit "id", VStr uuid);
                    (lit "title", VStr title);
                    (lit "completed", VBool false);
                    (lit "created_at", VStr now) ])
  /\ forall k, k <> uuid ->
       fst (McpServer.get_todo k s') = fst (McpServer.get_todo k s).
Proof.
  intros s'. unfold s'. rewrite exec_add. split.
  - now rewrite get_todo_eq, dict_get_setitem_eq.
  - intros k Hk. rewrite !get_todo_eq, dict_get_setitem_ne by assumption.
    now destruct (dict_get k s).
Qed.

(** X5. Deleting a todo that was just added, under an id that was not
    in the store, gives back the store as it was before the two calls,
    and reports the title that was added. *)
Theorem add_then_delete_restores
    (s : list (str * McpServer.Todo)) (uuid now title : str) :
  dict_get uuid s = None ->
  McpServer.delete_todo uuid
    (McpServer.exec (McpServer.OpAdd uuid now title) s)
  = (Return (lit "Todo '" ++ title ++ lit "' deleted."), s).
Proof.
  intros Hfresh. rewrite exec_add, delete_todo_without, dict_get_setitem_eq.
  rewrite dict_setitem_fresh by assumption.
  now rewrite dict_without_last.
Qed.

Lemma add_then_delete_restores_witness :
  McpServer.delete_todo (lit "u2")
    (McpServer.exec
       (McpServer.OpAdd (lit "u2") (lit "t2") (lit "Walk the dog"))
       [ (lit "u1", McpServer.mkTodo (lit "Buy groceries") true (lit "t1")) ])
  = (Return (lit "Todo 'Walk the dog' deleted."),
     [ (lit "u1", McpServer.mkTodo (lit "Buy groceries") true (lit "t1")) ]).
Proof. apply add_then_delete_restores. reflexivity. Defined.

(** X6. [add_todo] does not look whether the id it drew is taken: on an
    id that is stored already it puts the new todo in the place of the
    old one, so that the ids of the store and their order stay as they
    were, while the title, the timestamp and the flag of that id are
    those of the new todo. *)
Theorem add_on_taken_id_replaces
    (s : list (str * McpServer.Todo)) (uuid now title : str)
    (old : McpServer.Todo) :
  dict_get uuid s = Some old ->
  let s' := McpServer.exec (McpServer.OpAdd uuid now title) s in
  dict_keys s' = dict_keys s
  /\ dict_get uuid s' = Some (McpServer.mkTodo title false now)
  /\ (forall k, k <> uuid -> dict_get k s' = dict_get k s)
  /\ fst (McpServer.add_todo uuid now title s) =
     Return (lit "Todo '" ++ title ++ lit "' added with ID " ++ uuid).
Proof.
  intros Hold s'. unfold s'. rewrite exec_add. repeat split.
  - apply dict_setitem_keys_present. congruence.
  - apply dict_get_setitem_eq.
  - intros k Hk. now apply dict_get_setitem_ne.
Qed.

Lemma add_on_taken_id_replaces_witness :
  dict_get (lit "u1")
    (McpServer.exec (McpServer.OpAdd (lit "u1") (lit "t9") (lit "Walk the dog"))
       [ (lit "u1", McpServer.mkTodo (lit "Buy groceries") true (lit "t1")) ])
  = Some (McpServer.mkTodo (lit "Walk the dog") false (lit "t9")).
Proof.
  refine (proj1 (proj2 (add_on_taken_id_replaces
            [ (lit "u1", McpServer.mkTodo (lit "Buy groceries") true (lit "t1")) ]
            (lit "u1") (lit "t9") (lit "Walk the dog")
            (McpServer.mkTodo (lit "Buy groceries") true (lit "t1")) _))).
  reflexivity.
Defined.

(** X7. A second [delete_todo] on the same id finds nothing: after a
    [delete_todo] on any id, stored or not, [delete_todo] on that id
    reports "Todo not found." and leaves the store as the first call
    left it. *)
Theorem delete_todo_twice (s : list (str * McpServer.Todo)) (todo_id : str) :
  List.NoDup (dict_keys s) ->
  let s' := McpServer.exec (McpServer.OpDelete todo_id) s in
  McpServer.delete_todo todo_id s' = (Return (lit "Todo not found."), s').
Proof.
  intros Hnd s'. unfold s'. rewrite exec_delete, delete_todo_without.
  now rewrite dict_get_without_eq.
Qed.

Lemma delete_todo_twice_witness :
  McpServer.delete_todo (lit "u1")
    (McpServer.exec (McpServer.OpDelete (lit "u1"))
       [ (lit "u1", McpServer.mkTodo (lit "Buy groceries") true (lit "t1"));
         (lit "u2", McpServer.mkTodo (lit "Walk the dog") false (lit "t2")) ])
  = (Return (lit "Todo not found."),
     [ (lit "u2", McpServer.mkTodo (lit "Walk the dog") false (lit "t2")) ]).
Proof.
  apply (delete_todo_twice
           [ (lit "u1", McpServer.mkTodo (lit "Buy groceries") true (lit "t1"));
             (lit "u2", McpServer.mkTodo (lit "Walk the dog") false (lit "t2")) ]
           (lit "u1")).
  repeat constructor; simpl; intuition discriminate.
Defined.

Section IndependenceFacts.
Import McpServer.
Implicit Types (s : list (str * Todo)).

(** An operation on the id [b] leaves what is stored under another id. *)
Lemma dict_get_exec_other a b s :
  a <> b ->
  dict_get a (exec (OpComplete b) s) = dict_get a s
  /\ dict_get a (exec (OpDelete b) s) = dict_get a s.
Proof.
  intros Hne. rewrite exec_complete, exec_delete. split.
  - destruct (dict_get b s); [now apply dict_get_setitem_ne | reflexivity].
  - now apply dict_get_without_ne.
Qed.

End IndependenceFacts.

(** X8. Todos do not interfere: for two different ids, what
    [complete_todo] and [delete_todo] report on the one does not depend
    on a [complete_todo] or [delete_todo] run before on the other, and
    the store that two such operations leave is the same in either
    order. *)
Theorem operations_on_other_ids_commute
    (s : list (str * McpServer.Todo)) (a b : str) :
  a <> b ->
  (forall op, op = McpServer.OpComplete b \/ op = McpServer.OpDelete b ->
     fst (McpServer.complete_todo a (McpServer.exec op s))
       = fst (McpServer.complete_todo a s)
     /\ fst (McpServer.delete_todo a (McpServer.exec op s))
        = fst (McpServer.delete_todo a s)
     /\ fst (McpServer.get_todo a (McpServer.exec op s))
        = fst (McpServer.get_todo a s))
  /\ McpServer.exec (McpServer.OpComplete a)
       (McpServer.exec (McpServer.OpComplete b) s)
     = McpServer.exec (McpServer.OpComplete b)
         (McpServer.exec (McpServer.OpComplete a) s)
  /\ McpServer.exec (McpServer.OpComplete a)
       (McpServer.exec (McpServer.OpDelete b) s)
     = McpServer.exec (McpServer.OpDelete b)
         (McpServer.exec (McpServer.OpComplete a) s)
  /\ McpServer.exec (McpServer.OpDelete a)
       (McpServer.exec (McpServer.OpDelete b) s)
     = McpServer.exec (McpServer.OpDelete b)
         (McpServer.exec (McpServer.OpDelete a) s).
Proof.
  intros Hne.
  assert (Hne' : b <> a) by congruence.
  destruct (dict_get_exec_other a b s Hne) as [Hc Hd].
  destruct (dict_get_exec_other b a s Hne') as [Hc' Hd'].
  split; [|split; [|split]].
  - intros op [-> | ->];
      rewrite !complete_todo_eq, !delete_todo_without, !get_todo_eq,
        ?Hc, ?Hd;
      (destruct (dict_get a s) as [t|]; [|auto]);
      destruct (McpServer.completed t); auto.
  - rewrite (exec_complete a), (exec_complete b (McpServer.exec _ _)), Hc, Hc'.
    rewrite !exec_complete.
    destruct (dict_get a s) as [ta|] eqn:Ea, (dict_get b s) as [tb|] eqn:Eb;
      try reflexivity.
    apply dict_setitem_setitem_ne; congruence.
  - rewrite (exec_complete a), Hd, !exec_delete, exec_complete.
    destruct (dict_get a s) as [ta|] eqn:Ea; [|reflexivity].
    symmetry. apply dict_without_setitem_ne; congruence.
  - rewrite !exec_delete.
    now destruct (dict_without_without a b s) as [H | H].
Qed.

Lemma operations_on_other_ids_commute_witness :
  McpServer.exec (McpServer.OpComplete (lit "u1"))
    (McpServer.exec (McpServer.OpDelete (lit "u2"))
       [ (lit "u1", McpServer.mkTodo (lit "Buy groceries") false (lit "t1"));
         (lit "u2", McpServer.mkTodo (lit "Walk the dog") false (lit "t2")) ])
  = McpServer.exec (McpServer.OpDelete (lit "u2"))
      (McpServer.exec (McpServer.OpComplete (lit "u1"))
         [ (lit "u1", McpServer.mkTodo (lit "Buy groceries") false (lit "t1"));
           (lit "u2", McpServer.mkTodo (lit "Walk the dog") false (lit "t2")) ]).
Proof.
  refine (proj1 (proj2 (proj2 (operations_on_other_ids_commute _
            (lit "u1") (lit "u2") _)))).
  discriminate.
Defined.

(** X9. [get_todo] and [list_todos] show the same todos: every entry
    of [list_todos] is what [get_todo] returns for the id of that
    entry, and [get_todo] returns the not-found payload exactly for
    the ids that no entry of [list_todos] carries. *)
Theorem get_todo_agrees_with_list_todos (s : list (str * McpServer.Todo)) :
  List.NoDup (dict_keys s) ->
  exists entries,
    McpServer.list_todos s = (Return (VList entries), s)
    /\ (forall e, In e entries ->
          exists todo_id d,
            e = VDict d /\ dict_get (lit "id") d = Some (VStr todo_id)
            /\ fst (McpServer.get_todo todo_id s) = Return e)
    /\ (forall todo_id,
          fst (McpServer.get_todo todo_id s) =
            Return (VDict [(lit "error", VStr (lit "Todo not found"))])
          <-> ~ exists d, In (VDict d) entries
                          /\ dict_get (lit "id") d = Some (VStr todo_id)).
Proof.
  intros Hnd. eexists. split; [apply list_todos_eq|]. split.
  - intros e Hin. apply in_map_iff in Hin as ([k t] & <- & Hin).
    cbn [fst snd]. exists k. eexists. split; [apply todo_view_items|].
    split; [reflexivity|].
    rewrite get_todo_eq.
    assert (Hget : dict_get k s = Some t).
    { clear -Hnd Hin. induction s as [|[k0 t0] s IH]; [destruct Hin|].
      simpl in Hnd. apply NoDup_cons_iff in Hnd as [Hnotin Hnd].
      simpl. destruct Hin as [[= -> ->] | Hin].
      - now rewrite str_eqb_refl.
      - destruct (str_eqb k k0) eqn:E; [|now apply IH].
        apply str_eqb_eq in E. subst k0. exfalso. apply Hnotin.
        unfold dict_keys. change k with (fst (k, t)). now apply in_map. }
    now rewrite Hget.
  - intros todo_id. rewrite get_todo_eq.
    destruct (dict_get todo_id s) as [t|] eqn:E; split.
    + rewrite todo_view_items. intros H. discriminate H.
    + intros Hno. exfalso. apply Hno. eexists. split.
      * apply in_map_iff. exists (todo_id, t).
        split; [apply todo_view_items | now apply dict_get_Some_In].
      * reflexivity.
    + intros _ (d & Hin & Hid).
      apply in_map_iff in Hin as ([k t] & Hv & Hin).
      cbn [fst snd] in Hv. rewrite todo_view_items in Hv.
      injection Hv as <-. cbn in Hid. injection Hid as ->.
      apply dict_get_None_keys in E. apply E. unfold dict_keys.
      change todo_id with (fst (todo_id, t)). now apply in_map.
    + reflexivity.
Qed.

Lemma get_todo_agrees_with_list_todos_witness :
  exists entries,
    McpServer.list_todos
      [ (lit "u1", McpServer.mkTodo (lit "Buy groceries") true (lit "t1")) ]
    = (Return (VList entries),
       [ (lit "u1", McpServer.mkTodo (lit "Buy groceries") true (lit "t1")) ]).
Proof.
  destruct (get_todo_agrees_with_list_todos
              [ (lit "u1", McpServer.mkTodo (lit "Buy groceries") true (lit "t1")) ])
    as (entries & H & _).
  - repeat constructor; simpl; intuition discriminate.
  - exists entries. exact H.
Defined.

(* ----------------------------------------------------------------- *)
(** ** [send_message], continued *)

Section MoreWireFacts.
Import Json.

Lemma lstrip_spaces l y :
  Forall (fun c => is_space c = true) l -> lstrip (l ++ y) = lstrip y.
Proof.
  induction 1 as [|c l Hc _ IH]; [reflexivity|].
  cbn [app lstrip]. now rewrite Hc.
Qed.

Lemma rstrip_spaces x r :
  Forall (fun c => is_space c = true) r -> rstrip (x ++ r) = rstrip x.
Proof.
  intros H. unfold rstrip. rewrite rev_app_distr. f_equal.
  apply lstrip_spaces. now apply Forall_rev.
Qed.

(** Whitespace around the text of a value is stripped. *)
Lemma strip_padded l r v :
  Forall (fun c => is_space c = true) l ->
  Forall (fun c => is_space c = true) r ->
  strip (l ++ dumps v ++ r) = dumps v.
Proof.
  intros Hl Hr. unfold strip. rewrite lstrip_spaces by exact Hl.
  destruct (dumps_first v) as (c & t & E & Hc).
  destruct (dumps_last v) as (t' & c' & E' & Hc').
  rewrite E. cbn [app lstrip]. rewrite Hc.
  change (c :: t ++ r) with ((c :: t) ++ r). rewrite <- E.
  rewrite rstrip_spaces by exact Hr. rewrite E'. now apply rstrip_last.
Qed.

Lemma strip_spaces l : Forall (fun c => is_space c = true) l -> strip l = [].
Proof.
  intros H. unfold strip.
  rewrite <- (app_nil_r l), lstrip_spaces by exact H. reflexivity.
Qed.

Lemma bytes_decode_small (b : bytes) :
  Forall (fun x => Byte.to_N x < 128) b ->
  bytes_decode b = Return (List.map Byte.to_N b).
Proof.
  intros H.
  assert (E : b = List.map byte_of_N (List.map Byte.to_N b)).
  { clear H. induction b as [|x b IH]; [reflexivity|]. cbn [List.map].
    rewrite <- IH. f_equal. unfold byte_of_N. now rewrite Byte.of_to_N. }
  rewrite E at 1. apply bytes_decode_ascii. now apply List.Forall_map.
Qed.

(** The record of a well-formed message decodes to the message. *)
Lemma decode_record m :
  wf_value m = true ->
  SimpleMCPClient.decode_response
    (List.map byte_of_N (dumps m ++ [10])) = Return m.
Proof.
  intros Hwf. unfold SimpleMCPClient.decode_response.
  rewrite bytes_decode_ascii.
  - cbn [res_bind]. rewrite (proj1 (strip_dumps m)). now apply loads_dumps.
  - apply List.Forall_app. split; [|repeat constructor].
    eapply List.Forall_impl; [|apply dumps_printable].
    intros c [_ H]. simpl. lia.
Qed.

End MoreWireFacts.


(** X11. A line of nothing but ASCII whitespace, such as an empty line
    the server printed, makes [send_message] raise [JSONDecodeError]. *)
Theorem blank_line_raises
    (c : SimpleMCPClient.Client) (method : str) (params : value)
    (b : Byte.byte) (line : bytes) :
  Forall space_byte (b :: line) ->
  fst (SimpleMCPClient.send_message method params (b :: line) c) =
  Raise JSONDecodeError.
Proof.
  intros H. rewrite send_message_eq. cbn [fst].
  unfold SimpleMCPClient.decode_response.
  rewrite bytes_decode_small.
  - cbn [res_bind]. rewrite strip_spaces; [reflexivity|].
    apply List.Forall_map. eapply List.Forall_impl; [|exact H].
    now intros x [Hx _].
  - eapply List.Forall_impl; [|exact H]. now intros x [_ Hx].
Qed.

Lemma blank_line_raises_witness :
  fst (SimpleMCPClient.send_message (lit "tools/call") VNone
         [Byte.x0d; Byte.x0a] SimpleMCPClient.__init__)
  = Raise JSONDecodeError.
Proof.
  apply blank_line_raises. repeat constructor.
Defined.





(** X13. The record of a message is one line: when the message is
    encoded, the bytes to write are characters from space to tilde and
    then one newline. However a title is made (line breaks, quotes,
    any code point), it cannot break the framing. *)
Theorem record_is_one_line (m : value) (data : bytes) :
  SimpleMCPClient.encode_message m = Return data ->
  exists record : bytes,
    data = record ++ [Byte.x0a]
    /\ Forall (fun b => 32 <= Byte.to_N b /\ Byte.to_N b <= 126) record.
Proof.
  rewrite encode_message_total. intros [= <-].
  exists (List.map byte_of_N (Json.dumps m)). split.
  - now rewrite map_app.
  - apply List.Forall_map. eapply List.Forall_impl; [|apply dumps_printable].
    intros x [H1 H2]. cbn beta. rewrite to_N_byte_of_N by lia. now split.
Qed.

Lemma record_is_one_line_witness :
  let m :=
    SimpleMCPClient.message 1 (lit "tools/call")
      (VDict [ (lit "name", VStr (lit "add_todo"));
               (lit "arguments",
                VDict [(lit "title", VStr [10; 34; 233; 128512])]) ]) in
  exists record : bytes,
    SimpleMCPClient.encode_message m = Return (record ++ [Byte.x0a])
    /\ Forall (fun b => 32 <= Byte.to_N b /\ Byte.to_N b <= 126) record.
Proof.
  intros m.
  destruct (record_is_one_line m (List.map byte_of_N (Json.dumps m ++ [10])))
    as (record & Hdata & Hline).
  - vm_compute. reflexivity.
  - exists record. split; [|exact Hline].
    rewrite <- Hdata. vm_compute. reflexivity.
Defined.

(** X14. The decoder does not mind whitespace around the record: a
    well-formed message written with spaces, tabs, carriage returns or
    line feeds before and after it, as with a CR LF line end, decodes
    to the message. *)
Theorem padded_record_decodes (m : value) (before after : bytes) :
  Json.wf_value m = true ->
  Forall space_byte before -> Forall space_byte after ->
  SimpleMCPClient.decode_response
    (before ++ List.map byte_of_N (Json.dumps m) ++ after) = Return m.
Proof.
  intros Hwf Hb Ha. unfold SimpleMCPClient.decode_response.
  pose proof (dumps_printable m) as Hp.
  assert (Hback : List.map Byte.to_N (List.map byte_of_N (Json.dumps m))
                  = Json.dumps m).
  { rewrite List.map_map. rewrite <- (List.map_id (Json.dumps m)) at 2.
    apply List.map_ext_in. intros x Hx.
    rewrite List.Forall_forall in Hp. destruct (Hp x Hx) as [_ H].
    apply to_N_byte_of_N. lia. }
  rewrite bytes_decode_small.
  - cbn [res_bind]. rewrite !map_app, Hback.
    rewrite strip_padded; [now apply loads_dumps | |];
      apply List.Forall_map;
      (eapply List.Forall_impl; [|eassumption]); now intros x [Hx _].
  - apply List.Forall_app. split;
      [eapply List.Forall_impl; [|exact Hb]; now intros x [_ Hx]|].
    apply List.Forall_app. split;
      [|eapply List.Forall_impl; [|exact Ha]; now intros x [_ Hx]].
    apply List.Forall_map. eapply List.Forall_impl; [|exact Hp].
    intros x [_ H]. cbn beta. rewrite to_N_byte_of_N by lia. lia.
Qed.

Lemma padded_record_decodes_witness :
  SimpleMCPClient.decode_response
    ([Byte.x20] ++
     List.map byte_of_N
       (Json.dumps (VDict [ (lit "jsonrpc", VStr (lit "2.0"));
                            (lit "id", VInt 1);
                            (lit "result", VDict []) ])) ++
     [Byte.x0d; Byte.x0a])
  = Return (VDict [ (lit "jsonrpc", VStr (lit "2.0")); (lit "id", VInt 1);
                    (lit "result", VDict []) ]).
Proof.
  apply padded_record_decodes; [reflexivity | |]; repeat constructor.
Defined.

(** A request with well-formed parts can be read back from the wire. *)
Lemma request_sent
    (c : SimpleMCPClient.Client) (method : str) (params : value)
    (response_line : bytes) :
  Json.wf_str method = true -> Json.wf_value params = true ->
  exists record,
    SimpleMCPClient.stdin
      (snd (SimpleMCPClient.send_message method params response_line c))
    = SimpleMCPClient.stdin c ++ record
    /\ SimpleMCPClient.decode_response record =
       Return (VDict
         [ (lit "jsonrpc", VStr (lit "2.0"));
           (lit "id", VInt (SimpleMCPClient.message_id c + 1));
           (lit "method", VStr method);
           (lit "params",
            if SimpleMCPClient.truthy params then params else VDict []) ])
    /\ SimpleMCPClient.message_id
         (snd (SimpleMCPClient.send_message method params response_line c))
       = (SimpleMCPClient.message_id c + 1)%Z.
Proof.
  intros Hm Hp. rewrite send_message_eq.
  cbn [snd SimpleMCPClient.stdin SimpleMCPClient.message_id].
  eexists. split; [reflexivity|]. split; [|reflexivity].
  rewrite decode_record by now apply message_wf.
  reflexivity.
Qed.

(** X16. What [send_message] writes is what the server reads: for a
    method name and parameters that are well-formed, the bytes added to
    the standard input of the server decode to the request made of
    ["jsonrpc": "2.0"], the id after the last one used, the method, and
    the parameters, or [{}] in their place when they are [None], empty
    or otherwise false. *)
Theorem request_on_the_wire
    (c : SimpleMCPClient.Client) (method : str) (params : value)
    (response_line : bytes) :
  Json.wf_str method = true -> Json.wf_value params = true ->
  let c' := snd (SimpleMCPClient.send_message method params response_line c) in
  exists record,
    SimpleMCPClient.stdin c' = SimpleMCPClient.stdin c ++ record
    /\ SimpleMCPClient.decode_response record =
       Return (VDict
         [ (lit "jsonrpc", VStr (lit "2.0"));
           (lit "id", VInt (SimpleMCPClient.message_id c + 1));
           (lit "method", VStr method);
           (lit "params",
            if SimpleMCPClient.truthy params then params else VDict []) ])
    /\ SimpleMCPClient.message_id c' = (SimpleMCPClient.message_id c + 1)%Z.
Proof.
  intros Hm Hp c'. unfold c'. now apply request_sent.
Qed.

Lemma request_on_the_wire_witness :
  exists record,
    SimpleMCPClient.stdin
      (snd (SimpleMCPClient.send_message (lit "tools/list") VNone []
              SimpleMCPClient.__init__))
    = SimpleMCPClient.stdin SimpleMCPClient.__init__ ++ record
    /\ SimpleMCPClient.decode_response record =
       Return (VDict [ (lit "jsonrpc", VStr (lit "2.0"));
                       (lit "id", VInt 1);
                       (lit "method", VStr (lit "tools/list"));
                       (lit "params", VDict []) ]).
Proof.
  destruct (request_on_the_wire SimpleMCPClient.__init__ (lit "tools/list")
              VNone [] eq_refl eq_refl) as (record & H1 & H2 & _).
  exists record. split; [exact H1 | exact H2].
Defined.

(* ----------------------------------------------------------------- *)
(** ** The methods built on [send_message] *)

Section MethodFacts.
Import SimpleMCPClient.

(** A method, as an equation on the session. *)
Lemma with_result_eq method params line key c :
  with_result (send_message method params line) (first_text key) c =
  (match line with
   | [] => Done (Raise (Exception (lit "No response from server")))
   | _ :: _ =>
       match res_bind (decode_response line) check_response with
       | Return result => first_text key result
       | Raise e => Done (Raise e)
       | Unmodelled => Done Unmodelled
       end
   end,
   snd (send_message method params line c)).
Proof.
  unfold with_result. rewrite send_message_eq. cbn [snd].
  destruct line as [|b line]; [reflexivity|].
  now destruct (res_bind (decode_response (b :: line)) check_response).
Qed.

(** The result of a response object that carries no error. *)
Lemma check_response_result d :
  dict_get (lit "error") d = None ->
  check_response (VDict d) =
  Return (match dict_get (lit "result") d with
          | Some r => r
          | None => VDict []
          end).
Proof.
  intros H. unfold check_response, error_in, result_of, dict_contains.
  cbn [res_bind]. rewrite H. now destruct (dict_get (lit "result") d).
Qed.

End MethodFacts.

(** X17. For an argument that the codec carries unchanged (code
    points below 0x110000, no high surrogate right before a low one),
    each method of the client sends one request, whatever the server
    answers, and uses one id for it; what the server reads is,
    for [add_todo], [complete_todo] and [delete_todo], a [tools/call]
    with the name of the tool and its argument, for [list_todos],
    [get_todo] and [greet] a [resources/read] whose [uri] is
    [todos://all], or [todo://] or [greeting://] followed by the
    argument as it is, and for [initialize] the handshake with its
    protocol version, capabilities and client name. *)
Theorem methods_send_one_request
    (c : SimpleMCPClient.Client) (arg : str) (response_line : bytes) :
  Json.wf_str arg = true ->
  let sends (c' : SimpleMCPClient.Client) (method : str) (params : value) :=
    exists record,
      SimpleMCPClient.stdin c' = SimpleMCPClient.stdin c ++ record
      /\ SimpleMCPClient.decode_response record =
         Return (VDict [ (lit "jsonrpc", VStr (lit "2.0"));
                         (lit "id", VInt (SimpleMCPClient.message_id c + 1));
                         (lit "method", VStr method);
                         (lit "params", params) ])
      /\ SimpleMCPClient.message_id c' =
         (SimpleMCPClient.message_id c + 1)%Z in
  let tool (name key : str) :=
    VDict [ (lit "name", VStr name);
            (lit "arguments", VDict [(key, VStr arg)]) ] in
  sends (snd (SimpleMCPClient.add_todo arg response_line c))
    (lit "tools/call") (tool (lit "add_todo") (lit "title"))
  /\ sends (snd (SimpleMCPClient.complete_todo arg response_line c))
       (lit "tools/call") (tool (lit "complete_todo") (lit "todo_id"))
  /\ sends (snd (SimpleMCPClient.delete_todo arg response_line c))
       (lit "tools/call") (tool (lit "delete_todo") (lit "todo_id"))
  /\ sends (snd (SimpleMCPClient.list_todos response_line c))
       (lit "resources/read")
       (VDict [(lit "uri", VStr (lit "todos://all"))])
  /\ sends (snd (SimpleMCPClient.get_todo arg response_line c))
       (lit "resources/read")
       (VDict [(lit "uri", VStr (lit "todo://" ++ arg))])
  /\ sends (snd (SimpleMCPClient.greet arg response_line c))
       (lit "resources/read")
       (VDict [(lit "uri", VStr (lit "greeting://" ++ arg))])
  /\ sends (snd (SimpleMCPClient.initialize response_line c))
       (lit "initialize")
       (VDict
          [ (lit "protocolVersion", VStr (lit "2024-11-05"));
            (lit "capabilities",
             VDict [ (lit "roots", VDict [(lit "listChanged", VBool true)]);
                     (lit "sampling", VDict []) ]);
            (lit "clientInfo",
             VDict [ (lit "name", VStr (lit "simple-todo-client"));
                     (lit "version", VStr (lit "1.0.0")) ]) ]).
Proof.
  intros Harg sends tool.
  assert (Hsend : forall method params key,
             Json.wf_str method = true -> Json.wf_value params = true ->
             SimpleMCPClient.truthy params = true ->
             sends (snd (SimpleMCPClient.with_result
                           (SimpleMCPClient.send_message method params
                              response_line)
                           (SimpleMCPClient.first_text key) c))
               method params).
  { intros method params key Hm Hp Ht. rewrite with_result_eq. cbn [snd].
    destruct (request_sent c method params response_line Hm Hp)
      as (record & H1 & H2 & H3).
    exists record. rewrite Ht in H2. auto. }
  assert (Htool : forall name key : str,
             Json.wf_str name = true -> Json.wf_str key = true ->
             Json.wf_value (tool name key) = true).
  { intros name key Hn Hk. unfold tool. cbn. now rewrite Hn, Hk, Harg. }
  assert (Huri : forall prefix : str,
             Forall (fun x => x < 128) prefix ->
             Json.wf_str (prefix ++ arg) = true).
  { intros prefix Hp. induction Hp as [|x p Hx _ IH]; [exact Harg|].
    cbn [app Json.wf_str]. rewrite IH, andb_true_r.
    apply andb_true_intro. split; [apply N.ltb_lt; lia|].
    assert (Hh : Json.is_high x = false).
    { unfold Json.is_high. apply andb_false_intro1, N.leb_gt. lia. }
    rewrite Hh. now destruct (p ++ arg). }
  assert (Hascii : forall w : string, Forall (fun x => x < 128) (lit w) ->
                                      Json.wf_str (lit w ++ arg) = true)
    by (intros w; apply Huri).
  split; [|split; [|split; [|split; [|split; [|split]]]]].
  - apply (Hsend (lit "tools/call") (tool (lit "add_todo") (lit "title")));
      [reflexivity | now apply Htool | reflexivity].
  - apply (Hsend (lit "tools/call")
             (tool (lit "complete_todo") (lit "todo_id")));
      [reflexivity | now apply Htool | reflexivity].
  - apply (Hsend (lit "tools/call")
             (tool (lit "delete_todo") (lit "todo_id")));
      [reflexivity | now apply Htool | reflexivity].
  - apply (Hsend (lit "resources/read")
             (VDict [(lit "uri", VStr (lit "todos://all"))]));
      reflexivity.
  - apply (Hsend (lit "resources/read")
             (VDict [(lit "uri", VStr (lit "todo://" ++ arg))]));
      [reflexivity | | reflexivity].
    cbn [Json.wf_value List.map fst snd forallb Json.distinct existsb].
    rewrite Hascii; [reflexivity|]. repeat constructor.
  - apply (Hsend (lit "resources/read")
             (VDict [(lit "uri", VStr (lit "greeting://" ++ arg))]));
      [reflexivity | | reflexivity].
    cbn [Json.wf_value List.map fst snd forallb Json.distinct existsb].
    rewrite Hascii; [reflexivity|]. repeat constructor.
  - set (params :=
           VDict
             [ (lit "protocolVersion", VStr (lit "2024-11-05"));
               (lit "capabilities",
                VDict [ (lit "roots",
                         VDict [(lit "listChanged", VBool true)]);
                        (lit "sampling", VDict []) ]);
               (lit "clientInfo",
                VDict [ (lit "name", VStr (lit "simple-todo-client"));
                        (lit "version", VStr (lit "1.0.0")) ]) ]).
    assert (Hinit : SimpleMCPClient.initialize response_line
                    = SimpleMCPClient.send_message (lit "initialize") params
                        response_line).
    { unfold SimpleMCPClient.initialize.
      apply (f_equal (fun p => SimpleMCPClient.send_message
                                 (lit "initialize") p response_line)).
      vm_compute. reflexivity. }
    assert (Hm : Json.wf_str (lit "initialize") = true)
      by (vm_compute; reflexivity).
    assert (Hp : Json.wf_value params = true) by (vm_compute; reflexivity).
    assert (Ht : SimpleMCPClient.truthy params = true) by reflexivity.
    destruct (request_sent c (lit "initialize") params response_line Hm Hp)
      as (record & H1 & H2 & H3).
    rewrite Ht in H2. rewrite Hinit. exists record. auto.
Qed.

Lemma methods_send_one_request_witness :
  exists record,
    SimpleMCPClient.stdin
      (snd (SimpleMCPClient.get_todo (lit "not-a-real-id") []
              SimpleMCPClient.__init__)) = [] ++ record
    /\ SimpleMCPClient.decode_response record =
       Return (VDict [ (lit "jsonrpc", VStr (lit "2.0"));
                       (lit "id", VInt 1);
                       (lit "method", VStr (lit "resources/read"));
                       (lit "params",
                        VDict [(lit "uri",
                                VStr (lit "todo://not-a-real-id"))]) ]).
Proof.
  destruct (methods_send_one_request SimpleMCPClient.__init__
              (lit "not-a-real-id") [] eq_refl)
    as (_ & _ & _ & _ & (record & H1 & H2 & _) & _).
  exists record. split; [exact H1 | exact H2].
Defined.

(** X18. When the response is an object without [error] whose
    [result] holds, under [content], a list that starts with an object
    with a [text], then [add_todo], [complete_todo] and [delete_todo]
    return that text; [list_todos], [get_todo] and [greet] do the same
    with the list under [contents]. *)
Theorem methods_return_first_text
    (c : SimpleMCPClient.Client) (arg : str) (b : Byte.byte) (line : bytes)
    (d items item : list (str * value)) (more : list value) (t : value) :
  SimpleMCPClient.decode_response (b :: line) = Return (VDict d) ->
  dict_get (lit "error") d = None ->
  dict_get (lit "result") d = Some (VDict items) ->
  dict_get (lit "text") item = Some t ->
  (dict_get (lit "content") items = Some (VList (VDict item :: more)) ->
   Forall (fun call => fst (call (b :: line) c) = SimpleMCPClient.Done (Return t))
     [ SimpleMCPClient.add_todo arg; SimpleMCPClient.complete_todo arg;
       SimpleMCPClient.delete_todo arg ])
  /\ (dict_get (lit "contents") items = Some (VList (VDict item :: more)) ->
      Forall (fun call => fst (call (b :: line) c) = SimpleMCPClient.Done (Return t))
        [ SimpleMCPClient.list_todos; SimpleMCPClient.get_todo arg;
          SimpleMCPClient.greet arg ]).
Proof.
  intros Hdec Herr Hres Htext.
  split; intros Hitems; repeat constructor;
    unfold SimpleMCPClient.add_todo, SimpleMCPClient.complete_todo,
      SimpleMCPClient.delete_todo, SimpleMCPClient.list_todos,
      SimpleMCPClient.get_todo, SimpleMCPClient.greet;
    rewrite with_result_eq; cbn [fst]; rewrite Hdec; cbn [res_bind];
    rewrite (check_response_result d Herr), Hres;
    unfold SimpleMCPClient.first_text, SimpleMCPClient.getitem_str;
    rewrite Hitems; cbn; now rewrite Htext.
Qed.

Lemma methods_return_first_text_witness :
  fst (SimpleMCPClient.add_todo (lit "Buy groceries")
         (List.map byte_of_N
            (Json.dumps
               (VDict [ (lit "jsonrpc", VStr (lit "2.0")); (lit "id", VInt 1);
                        (lit "result",
                         VDict [(lit "content",
                                 VList [VDict [(lit "type", VStr (lit "text"));
                                               (lit "text",
                                                VStr (lit "added"))]])]) ])
             ++ [10]))
         SimpleMCPClient.__init__)
  = SimpleMCPClient.Done (Return (VStr (lit "added"))).
Proof.
  refine (Forall_inv (proj1 (methods_return_first_text
            SimpleMCPClient.__init__ (lit "Buy groceries") _ _
            [ (lit "jsonrpc", VStr (lit "2.0")); (lit "id", VInt 1);
              (lit "result",
               VDict [(lit "content",
                       VList [VDict [(lit "type", VStr (lit "text"));
                                     (lit "text", VStr (lit "added"))]])]) ]
            [(lit "content",
              VList [VDict [(lit "type", VStr (lit "text"));
                            (lit "text", VStr (lit "added"))]])]
            [(lit "type", VStr (lit "text")); (lit "text", VStr (lit "added"))]
            [] (VStr (lit "added")) _ _ _ _) _)).
  - vm_compute. reflexivity.
  - reflexivity.
  - reflexivity.
  - reflexivity.
  - reflexivity.
Defined.

(** X19. When the response is an object of another shape, the six
    methods end thus: with [error] in it, in the [Exception] that
    carries the error, like [send_message]; with neither [error] nor
    [result], or with a [result] object that lacks the list, in
    [KeyError] on [content] (tools) or [contents] (resources), the
    missing result being read as [{}]; with an empty list, in
    [IndexError]; with a [result] that is a list or a string, in
    [TypeError]. *)
Theorem methods_on_other_results
    (c : SimpleMCPClient.Client) (arg : str) (b : Byte.byte) (line : bytes)
    (d : list (str * value)) :
  SimpleMCPClient.decode_response (b :: line) = Return (VDict d) ->
  let tools := [ SimpleMCPClient.add_todo arg;
                 SimpleMCPClient.complete_todo arg;
                 SimpleMCPClient.delete_todo arg ] in
  let resources := [ SimpleMCPClient.list_todos;
                     SimpleMCPClient.get_todo arg;
                     SimpleMCPClient.greet arg ] in
  let all_end (calls : list (bytes -> SimpleMCPClient.Client ->
                             SimpleMCPClient.Outcome value
                             * SimpleMCPClient.Client))
              (o : SimpleMCPClient.Outcome value) :=
    Forall (fun call => fst (call (b :: line) c) = o) calls in
  (forall payload, dict_get (lit "error") d = Some payload ->
     all_end (tools ++ resources) (SimpleMCPClient.Done (Raise (ServerError payload))))
  /\ (dict_get (lit "error") d = None ->
      (dict_get (lit "result") d = None
       \/ exists items, dict_get (lit "result") d = Some (VDict items)
                        /\ dict_get (lit "content") items = None
                        /\ dict_get (lit "contents") items = None) ->
      all_end tools (SimpleMCPClient.Done (Raise (KeyError (lit "content"))))
      /\ all_end resources (SimpleMCPClient.Done (Raise (KeyError (lit "contents")))))
  /\ (dict_get (lit "error") d = None ->
      forall items, dict_get (lit "result") d = Some (VDict items) ->
        (dict_get (lit "content") items = Some (VList []) ->
         all_end tools (SimpleMCPClient.RaiseItem SimpleMCPClient.IndexError))
        /\ (dict_get (lit "contents") items = Some (VList []) ->
            all_end resources (SimpleMCPClient.RaiseItem SimpleMCPClient.IndexError)))
  /\ (dict_get (lit "error") d = None ->
      forall result, dict_get (lit "result") d = Some result ->
        (forall items, result <> VDict items) ->
        all_end (tools ++ resources) (SimpleMCPClient.Done (Raise TypeError))).
Proof.
  intros Hdec tools resources all_end.
  assert (Hcall : forall method params key,
             fst (SimpleMCPClient.with_result
                    (SimpleMCPClient.send_message method params (b :: line))
                    (SimpleMCPClient.first_text key) c)
             = match SimpleMCPClient.check_response (VDict d) with
               | Return result => SimpleMCPClient.first_text key result
               | Raise e => SimpleMCPClient.Done (Raise e)
               | Unmodelled => SimpleMCPClient.Done Unmodelled
               end).
  { intros. rewrite with_result_eq. cbn [fst]. now rewrite Hdec. }
  unfold all_end, tools, resources.
  split; [|split; [|split]].
  - intros payload Herr.
    assert (E : SimpleMCPClient.check_response (VDict d)
                = Raise (ServerError payload)).
    { unfold SimpleMCPClient.check_response, SimpleMCPClient.error_in,
        SimpleMCPClient.error_of, dict_contains. cbn [res_bind].
      now rewrite Herr. }
    repeat constructor;
      unfold SimpleMCPClient.add_todo, SimpleMCPClient.complete_todo,
        SimpleMCPClient.delete_todo, SimpleMCPClient.list_todos,
        SimpleMCPClient.get_todo, SimpleMCPClient.greet;
      now rewrite Hcall, E.
  - intros Herr Hres.
    assert (E : exists items,
               SimpleMCPClient.check_response (VDict d) = Return (VDict items)
               /\ dict_get (lit "content") items = None
               /\ dict_get (lit "contents") items = None).
    { rewrite (check_response_result d Herr).
      destruct Hres as [-> | (items & -> & H1 & H2)]; eauto. }
    destruct E as (items & E & H1 & H2).
    split; repeat constructor;
      unfold SimpleMCPClient.add_todo, SimpleMCPClient.complete_todo,
        SimpleMCPClient.delete_todo, SimpleMCPClient.list_todos,
        SimpleMCPClient.get_todo, SimpleMCPClient.greet;
      rewrite Hcall, E;
      unfold SimpleMCPClient.first_text, SimpleMCPClient.getitem_str;
      now rewrite ?H1, ?H2.
  - intros Herr items Hres.
    split; intros Hitems; repeat constructor;
      unfold SimpleMCPClient.add_todo, SimpleMCPClient.complete_todo,
        SimpleMCPClient.delete_todo, SimpleMCPClient.list_todos,
        SimpleMCPClient.get_todo, SimpleMCPClient.greet;
      rewrite Hcall, (check_response_result d Herr), Hres;
      unfold SimpleMCPClient.first_text, SimpleMCPClient.getitem_str;
      now rewrite Hitems.
  - intros Herr result Hres Hno.
    repeat constructor;
      unfold SimpleMCPClient.add_todo, SimpleMCPClient.complete_todo,
        SimpleMCPClient.delete_todo, SimpleMCPClient.list_todos,
        SimpleMCPClient.get_todo, SimpleMCPClient.greet;
      rewrite Hcall, (check_response_result d Herr), Hres;
      destruct result as [| x | z | s | l | items]; try reflexivity;
      now destruct (Hno items).
Qed.

Lemma methods_on_other_results_witness :
  fst (SimpleMCPClient.list_todos
         (List.map byte_of_N
            (Json.dumps
               (VDict [ (lit "jsonrpc", VStr (lit "2.0")); (lit "id", VInt 1) ])
             ++ [10]))
         SimpleMCPClient.__init__)
  = SimpleMCPClient.Done (Raise (KeyError (lit "contents"))).
Proof.
  refine (Forall_inv (proj2 (proj1 (proj2 (methods_on_other_results
            SimpleMCPClient.__init__ (lit "x") _ _
            [ (lit "jsonrpc", VStr (lit "2.0")); (lit "id", VInt 1) ] _))
            _ _))).
  - vm_compute. reflexivity.
  - reflexivity.
  - left. reflexivity.
Defined.
